(** * Campus electricity pipeline: ingestion, aggregation, reporting

    A shallow embedding of [capstone_assignment/electricity_pipeline.py].
    The script reads every [*.csv] of a data folder with pandas, merges
    the valid files into one table, aggregates it per day, per week and
    per building, and writes four artefacts into the working directory.

    Conventions of the embedding.
    - A kWh value is a pandas [float64]: [Some x] is the number [x] (an
      exact rational here, so rounding of binary floating point is not
      represented), [None] is NaN, the value pandas gives to an empty
      cell.  The [kwh] column is numeric by type: a file whose [kwh]
      column holds text is outside the modelled inputs.
    - An instant is a [datetime64[ns]]: a count of nanoseconds since
      1970-01-01T00:00:00; [None] is NaT.
    - The raw [timestamp] column holds text or empty cells.
    - [pd.read_csv] and the text-to-instant step of [pd.to_datetime] are
      library code: the first is the [read_csv] field of a file, the
      second the parameter [parse_datetime] of the loader.
    - A frame is a list of column labels and a list of rows; a row that
      has no entry for a label reads as [NA] there, which is what
      [pd.concat] produces for frames with different columns. *)

From Stdlib Require Import ZArith QArith String Ascii List Lia Permutation.
From stdpp Require Import base option list gmap strings sorting.
Import ListNotations.

Local Open Scope Z_scope.
Local Open Scope list_scope.

(** ** Numbers *)

(** [Series.sum()] with the default [skipna=True, min_count=0]: NaN
    entries are left out and the sum of nothing is 0. *)
Definition nansum (xs : list (option Q)) : Q :=
  fold_left (fun acc x => match x with Some v => (acc + v)%Q | None => acc end)
            xs 0%Q.

(** Python's [+] on floats: NaN is absorbing. *)
Definition py_add (a b : option Q) : option Q :=
  match a, b with
  | Some x, Some y => Some (x + y)%Q
  | _, _ => None
  end.

(** Python's builtin [sum(iterable)]: starts from 0 and adds from the left. *)
Definition py_sum (xs : list (option Q)) : option Q :=
  fold_left py_add xs (Some 0%Q).

(** The values of a series that are not NaN, in order. *)
Definition dropna (xs : list (option Q)) : list Q :=
  omap id xs.

(** [Series.min()] / [Series.max()] with [skipna=True]: NaN when there is
    no number at all. *)
Definition Qminimum (a b : Q) : Q := if Qle_bool a b then a else b.
Definition Qmaximum (a b : Q) : Q := if Qle_bool b a then a else b.

Definition nanmin (xs : list (option Q)) : option Q :=
  match dropna xs with
  | [] => None
  | v :: vs => Some (fold_left Qminimum vs v)
  end.

Definition nanmax (xs : list (option Q)) : option Q :=
  match dropna xs with
  | [] => None
  | v :: vs => Some (fold_left Qmaximum vs v)
  end.

(** [Series.mean()] with [skipna=True]. *)
Definition nanmean (xs : list (option Q)) : option Q :=
  match dropna xs with
  | [] => None
  | vs => Some (nansum xs / inject_Z (Z.of_nat (length vs)))%Q
  end.

(** [Series.idxmax()] with [skipna=True] over a RangeIndex: the position
    of the first occurrence of the largest number; [None] stands for the
    exception (or the NaN label that [df.loc] then rejects) on a series
    without any number. *)
Fixpoint idxmax_from (i : nat) (best : option (nat * Q)) (xs : list (option Q))
  : option (nat * Q) :=
  match xs with
  | [] => best
  | None :: xs' => idxmax_from (S i) best xs'
  | Some v :: xs' =>
      match best with
      | None => idxmax_from (S i) (Some (i, v)) xs'
      | Some (j, b) =>
          if Qle_bool v b then idxmax_from (S i) best xs'
          else idxmax_from (S i) (Some (i, v)) xs'
      end
  end.

Definition idxmax (xs : list (option Q)) : option nat :=
  fst <$> idxmax_from 0%nat None xs.

(** ** Calendar *)

Definition ns_per_day : Z := 86400 * 1000000000.

(** Day number of an instant (days since 1970-01-01, floor). *)
Definition day_of (t : Z) : Z := t / ns_per_day.

(** Day of the week of a day number, Monday = 0 ... Sunday = 6
    (1970-01-01 was a Thursday). *)
Definition weekday (d : Z) : Z := (d + 3) mod 7.

(** The Sunday that closes the week of a day: the label of the ["W"]
    (W-SUN, right-closed, right-labelled) bucket. *)
Definition week_end_of (d : Z) : Z := d + (6 - weekday d).

(** A small reader for the textual instants used in the examples:
    [YYYY-MM-DD], optionally followed by a blank or [T] and [HH:MM:SS]. *)
Definition digit (c : ascii) : option Z :=
  let n := Z.of_N (N_of_ascii c) in
  if (48 <=? n) && (n <=? 57) then Some (n - 48) else None.

Fixpoint digits_from (acc : Z) (cs : list ascii) : option Z :=
  match cs with
  | [] => Some acc
  | c :: cs' =>
      match digit c with
      | Some d => digits_from (10 * acc + d) cs'
      | None => None
      end
  end.

Definition number (cs : list ascii) : option Z := digits_from 0 cs.

Definition is_leap (y : Z) : bool :=
  ((y mod 4 =? 0) && negb (y mod 100 =? 0)) || (y mod 400 =? 0).

Definition days_in_month (y m : Z) : Z :=
  if m =? 2 then (if is_leap y then 29 else 28)
  else if (m =? 4) || (m =? 6) || (m =? 9) || (m =? 11) then 30
  else 31.

(** Days from 1970-01-01 to the civil date [y-m-d] (proleptic Gregorian). *)
Definition days_from_civil (y m d : Z) : Z :=
  let y' := if m <=? 2 then y - 1 else y in
  let era := y' / 400 in
  let yoe := y' - era * 400 in
  let mp := if m <=? 2 then m + 9 else m - 3 in
  let doy := (153 * mp + 2) / 5 + d - 1 in
  let doe := yoe * 365 + yoe / 4 - yoe / 100 + doy in
  era * 146097 + doe - 719468.

Definition civil_date (y m d : Z) : option Z :=
  if (1 <=? m) && (m <=? 12) && (1 <=? d) && (d <=? days_in_month y m)
  then Some (days_from_civil y m d) else None.

Definition clock (h m s : Z) : option Z :=
  if (h <? 24) && (m <? 60) && (s <? 60)
  then Some (((h * 60 + m) * 60 + s) * 1000000000) else None.

Definition iso_date (cs : list ascii) : option Z :=
  match cs with
  | [y1; y2; y3; y4; "-"%char; m1; m2; "-"%char; d1; d2] =>
      y ← number [y1; y2; y3; y4];
      m ← number [m1; m2];
      d ← number [d1; d2];
      civil_date y m d
  | _ => None
  end.

Definition iso_clock (cs : list ascii) : option Z :=
  match cs with
  | [h1; h2; ":"%char; m1; m2; ":"%char; s1; s2] =>
      h ← number [h1; h2];
      m ← number [m1; m2];
      s ← number [s1; s2];
      clock h m s
  | _ => None
  end.

Definition iso8601 (s : string) : option Z :=
  let cs := list_ascii_of_string s in
  let date := take 10 cs in
  match drop 10 cs with
  | [] => d ← iso_date date; Some (d * ns_per_day)
  | sep :: time =>
      if (Ascii.eqb sep " " || Ascii.eqb sep "T")%bool then
        d ← iso_date date;
        t ← iso_clock time;
        Some (d * ns_per_day + t)
      else None
  end.

(** ** Frames *)

(** A value of a column the pipeline only carries along. *)
Inductive cell :=
| NA
| Num (x : Q)
| Str (s : string)
| Timestamp (t : Z).

Definition lookup_cell (c : string) (cs : list (string * cell)) : cell :=
  match find (fun kv => String.eqb (fst kv) c) cs with
  | Some kv => snd kv
  | None => NA
  end.

(** One line of a file as [pd.read_csv(file, on_bad_lines="skip")] returns
    it (malformed lines are already gone): the text of its [timestamp]
    cell, the number of its [kwh] cell, and the cells of the other
    columns by label.  A column the file does not have reads as empty. *)
Record RawRow := mkRawRow {
  raw_timestamp : option string;
  raw_kwh : option Q;
  raw_other : list (string * cell)
}.

Record RawFrame := mkRawFrame {
  raw_columns : list string;
  raw_rows : list RawRow
}.

Definition raw_cell (c : string) (r : RawRow) : cell :=
  if String.eqb c "timestamp" then from_option Str NA (raw_timestamp r)
  else if String.eqb c "kwh" then from_option Num NA (raw_kwh r)
  else lookup_cell c (raw_other r).

(** What a [try] block of the loader can catch. *)
Inductive exn :=
| FileNotFoundError
| ParserError (msg : string)
| ValueError (msg : string)
| DateParseError (text : string).

(** A file of the data folder: [file.stem] and what [pd.read_csv] makes
    of its content. *)
Record CsvFile := mkCsvFile {
  stem : string;
  read_csv : exn + RawFrame
}.

(** A row of the merged table. *)
Record Row := mkRow {
  timestamp : option Z;
  kwh : option Q;
  building : string;
  other : list (string * cell)
}.

Record DataFrame := mkDataFrame {
  columns : list string;
  rows : list Row
}.

Definition row_cell (c : string) (r : Row) : cell :=
  if String.eqb c "timestamp" then from_option Timestamp NA (timestamp r)
  else if String.eqb c "kwh" then from_option Num NA (kwh r)
  else if String.eqb c "building" then Str (building r)
  else lookup_cell c (other r).

(** [pd.DataFrame()] *)
Definition empty_frame : DataFrame := mkDataFrame [] [].

(** [df.empty]: some axis has length 0. *)
Definition empty (df : DataFrame) : bool :=
  match rows df, columns df with
  | [], _ => true
  | _, [] => true
  | _, _ => false
  end.

(** [pd.concat([a, b], ignore_index=True)]: the rows of [a] then those of
    [b], over the labels of [a] followed by the new labels of [b]. *)
Definition concat (a b : DataFrame) : DataFrame :=
  mkDataFrame (columns a ++ list_difference (columns b) (columns a))
              (rows a ++ rows b).

(** ** Task 1: ingestion and validation *)

Inductive LogRecord :=
| DataFolderMissing
| FileNotFound (file : string)
| ErrorProcessing (file : string) (e : exn).

(** [df[label] = ...] on the list of labels: an existing label keeps its
    place, a new one goes last. *)
Definition assign_column (label : string) (cols : list string) : list string :=
  if bool_decide (label ∈ cols) then cols else cols ++ [label].

Section Loader.

(** The reading of one non-empty timestamp text by [pd.to_datetime];
    [None] when pandas cannot read it. *)
Variable parse_datetime : string -> option Z.

(** [pd.to_datetime] on one cell: an empty cell becomes NaT without an
    error, a text that cannot be read raises. *)
Definition to_datetime (x : option string) : exn + option Z :=
  match x with
  | None => inr None
  | Some s =>
      match parse_datetime s with
      | Some t => inr (Some t)
      | None => inl (DateParseError s)
      end
  end.

(** [df["building"] = file.stem] and
    [df["timestamp"] = pd.to_datetime(df["timestamp"])] along the rows:
    the first text that cannot be read raises for the whole column. *)
Fixpoint standardize (name : string) (rs : list RawRow) : exn + list Row :=
  match rs with
  | [] => inr []
  | r :: rs' =>
      match to_datetime (raw_timestamp r) with
      | inl e => inl e
      | inr t =>
          match standardize name rs' with
          | inl e => inl e
          | inr out =>
              inr (mkRow t (raw_kwh r) name
                     (filter (fun kv => fst kv <> "building") (raw_other r))
                   :: out)
          end
      end
  end.

(** The body of the [try] block for one file. *)
Definition load_file (file : CsvFile) : exn + DataFrame :=
  match read_csv file with
  | inl e => inl e
  | inr df =>
      let cols := assign_column "building" (raw_columns df) in
      if bool_decide ("timestamp" ∈ cols) then
        match standardize (stem file) (raw_rows df) with
        | inl e => inl e
        | inr rs =>
            if bool_decide ("kwh" ∈ cols) then inr (mkDataFrame cols rs)
            else inl (ValueError "kwh column missing")
        end
      else inl (ValueError "timestamp column missing")
  end.

(** One turn of the [for file in data_path.glob("*.csv")] loop, on the
    pair of [combined_df] and the records logged so far. *)
Definition load_step (acc : DataFrame * list LogRecord) (file : CsvFile)
  : DataFrame * list LogRecord :=
  match load_file file with
  | inr df => (concat (fst acc) df, snd acc)
  | inl FileNotFoundError => (fst acc, snd acc ++ [FileNotFound (stem file)])
  | inl e => (fst acc, snd acc ++ [ErrorProcessing (stem file) e])
  end.

(** [load_energy_data]: [None] is a data folder that does not exist,
    [Some files] its [*.csv] files in the order [glob] yields them. *)
Definition load_energy_data (data_folder : option (list CsvFile))
  : DataFrame * list LogRecord :=
  match data_folder with
  | None => (empty_frame, [DataFolderMissing])
  | Some files => fold_left load_step files (empty_frame, [])
  end.

End Loader.

(** ** Task 2: aggregation *)

(** The dated rows of the table as (day number, kwh).  A row whose
    timestamp is NaT has no place on the time axis: [resample] leaves it
    out. *)
Definition dated (df : DataFrame) : list (Z * option Q) :=
  omap (fun r => match timestamp r with
                 | Some t => Some (day_of t, kwh r)
                 | None => None
                 end) (rows df).

(** The sum of one bucket: NaN skipped, 0 for a bucket without rows. *)
Definition bucket_total (b : Z) (obs : list (Z * option Q)) : Q :=
  nansum (snd <$> filter (fun o => fst o = b) obs).

(** The bucket labels from [lo] to [hi], [step] days apart. *)
Definition period_range (lo hi step : Z) : list Z :=
  (fun i => lo + step * Z.of_nat i) <$> seq 0 (S (Z.to_nat ((hi - lo) / step))).

(** [df.set_index("timestamp").resample(rule)["kwh"].sum().reset_index()]
    for a rule that sends a day to the day labelling its bucket, buckets
    being [step] days apart.  Every bucket between the first and the last
    one that hold a row is reported, those without rows with total 0; the
    label is given as the instant at which its day starts.  A table
    without rows gives an empty series; [None] is a table with rows of
    which none has a timestamp, for which there is no time axis to lay
    buckets on. *)
Definition resample_sum (label : Z -> Z) (step : Z) (df : DataFrame)
  : option (list (Z * Q)) :=
  match rows df with
  | [] => Some []
  | _ =>
      let obs := prod_map label id <$> dated df in
      match fst <$> obs with
      | [] => None
      | b :: bs =>
          let lo := fold_left Z.min bs b in
          let hi := fold_left Z.max bs b in
          Some ((fun d => (d * ns_per_day, bucket_total d obs))
                  <$> period_range lo hi step)
      end
  end.

Definition calculate_daily_totals (df : DataFrame) : option (list (Z * Q)) :=
  resample_sum id 1 df.

Definition calculate_weekly_aggregates (df : DataFrame) : option (list (Z * Q)) :=
  resample_sum week_end_of 7 df.

(** [df.groupby("building")["kwh"]]: the kwh values of each building in
    table order, the buildings in ascending order of their names. *)
Fixpoint group_insert (k : string) (v : option Q)
    (groups : list (string * list (option Q)))
  : list (string * list (option Q)) :=
  match groups with
  | [] => [(k, [v])]
  | (k', vs) :: rest =>
      match String.compare k k' with
      | Eq => (k', vs ++ [v]) :: rest
      | Lt => (k, [v]) :: groups
      | Gt => (k', vs) :: group_insert k v rest
      end
  end.

Definition groupby_building (df : DataFrame) : list (string * list (option Q)) :=
  fold_left (fun g r => group_insert (building r) (kwh r) g) (rows df) [].

(** A row of the building-wise summary; [sr_min] and [sr_max] are the
    columns [min] and [max]. *)
Record SummaryRow := mkSummaryRow {
  sr_building : string;
  sr_total : Q;
  sr_mean : option Q;
  sr_min : option Q;
  sr_max : option Q
}.

Definition aggregate (g : string * list (option Q)) : SummaryRow :=
  mkSummaryRow (fst g) (nansum (snd g)) (nanmean (snd g))
               (nanmin (snd g)) (nanmax (snd g)).

Definition building_wise_summary (df : DataFrame) : list SummaryRow :=
  aggregate <$> groupby_building df.

(** ** Task 3: the object model *)

Record MeterReading := mkMeterReading {
  reading_timestamp : option Z;
  reading_kwh : option Q
}.

Record Building := mkBuilding {
  name : string;
  meter_readings : list MeterReading
}.

Definition Building_add_reading (b : Building) (t : option Z) (k : option Q)
  : Building :=
  mkBuilding (name b) (meter_readings b ++ [mkMeterReading t k]).

Definition calculate_total_consumption (b : Building) : option Q :=
  py_sum (reading_kwh <$> meter_readings b).

(** The line of [generate_report]: the name and the total, the latter
    printed with two decimals. *)
Definition generate_report (b : Building) : string * option Q :=
  (name b, calculate_total_consumption b).

(** [BuildingManager.buildings]: a dict, kept in insertion order. *)
Definition BuildingManager := list (string * Building).

Fixpoint BuildingManager_add_reading (m : BuildingManager)
    (building_name : string) (t : option Z) (k : option Q) : BuildingManager :=
  match m with
  | [] => [(building_name, Building_add_reading (mkBuilding building_name []) t k)]
  | (n, b) :: m' =>
      if String.eqb n building_name then (n, Building_add_reading b t k) :: m'
      else (n, b) :: BuildingManager_add_reading m' building_name t k
  end.

Definition generate_all_reports (m : BuildingManager) : list (string * option Q) :=
  generate_report ∘ snd <$> m.

(** The manager after every row of the table was handed to it. *)
Definition manager_of (df : DataFrame) : BuildingManager :=
  fold_left (fun m r => BuildingManager_add_reading m (building r) (timestamp r) (kwh r))
            (rows df) [].

(** ** Task 4: the dashboard *)

(** What is drawn: the daily series of each building, the mean of the
    weekly sums of each building, and every reading against its time. *)
Record Dashboard := mkDashboard {
  trend : list (string * list (Z * Q));
  weekly_average : list (string * option Q);
  scatter : list (option Z * option Q)
}.

Definition rows_of_building (b : string) (df : DataFrame) : DataFrame :=
  mkDataFrame (columns df) (filter (fun r => building r = b) (rows df)).

(** [Series.unique()]: the values in order of first appearance. *)
Fixpoint unique_from (seen : list string) (xs : list string) : list string :=
  match xs with
  | [] => []
  | x :: xs' =>
      if bool_decide (x ∈ seen) then unique_from seen xs'
      else x :: unique_from (x :: seen) xs'
  end.

(** [df["building"].unique()] *)
Definition unique_buildings (df : DataFrame) : list string :=
  unique_from [] (building <$> rows df).

Definition create_dashboard (df : DataFrame) : option Dashboard :=
  daily ← mapM (fun b => pair b <$> calculate_daily_totals (rows_of_building b df))
               (unique_buildings df);
  weekly ← mapM (fun g =>
                   w ← calculate_weekly_aggregates (rows_of_building (fst g) df);
                   Some (fst g, nanmean (Some ∘ snd <$> w)))
                (groupby_building df);
  Some (mkDashboard daily weekly
          ((fun r => (timestamp r, kwh r)) <$> rows df)).

(** ** Task 5: exports and summary *)

(** The figures of [summary_text]; the numbers are printed with two
    decimals, the building and the peak time as they are. *)
Record SummaryText := mkSummaryText {
  total_consumption : Q;
  highest_building : string;
  peak_time : option Z;
  peak_load : option Q;
  daily_range : option Q * option Q;
  weekly_range : option Q * option Q
}.

(** [summary_df.loc[summary_df["total"].idxmax()]] *)
Definition highest_row (summary_df : list SummaryRow) : option SummaryRow :=
  i ← idxmax (Some ∘ sr_total <$> summary_df);
  summary_df !! i.

(** [df.loc[df["kwh"].idxmax()]] *)
Definition peak_row (df : DataFrame) : option Row :=
  i ← idxmax (kwh <$> rows df);
  rows df !! i.

Definition series_range (s : list (Z * Q)) : option Q * option Q :=
  (nanmin (Some ∘ snd <$> s), nanmax (Some ∘ snd <$> s)).

(** The text composed by [generate_summary]; [None] when one of its
    lookups raises. *)
Definition summary_text (df : DataFrame) (summary_df : list SummaryRow)
  : option SummaryText :=
  top ← highest_row summary_df;
  peak ← peak_row df;
  daily ← calculate_daily_totals df;
  weekly ← calculate_weekly_aggregates df;
  Some (mkSummaryText (nansum (kwh <$> rows df)) (sr_building top)
          (timestamp peak) (kwh peak)
          (series_range daily) (series_range weekly)).

(** ** The pipeline *)

Inductive Content :=
| TableCsv (df : DataFrame)
| SummaryCsv (summary_df : list SummaryRow)
| Figure (d : Dashboard)
| Text (t : SummaryText).

(** The part of the machine the script touches: the data folder it reads
    (which lies below the working directory and is never written), the
    files of the working directory, the standard output and the log. *)
Inductive Output :=
| Line (s : string)
| Report (t : SummaryText).

Record World := mkWorld {
  data : option (list CsvFile);
  cwd : gmap string Content;
  stdout : list Output;
  log : list LogRecord
}.

(** A step of the script: the world after it and its value, [None] when
    an exception escapes. *)
Definition Run (A : Type) : Type := World -> World * option A.

Definition ret {A} (x : A) : Run A := fun w => (w, Some x).

Definition bind {A B} (m : Run A) (k : A -> Run B) : Run B :=
  fun w => match m w with
           | (w', Some x) => k x w'
           | (w', None) => (w', None)
           end.

Notation "x <- m ;; k" := (bind m (fun x => k))
  (at level 100, m at next level, right associativity).
Notation "m ;; k" := (bind m (fun _ => k))
  (at level 100, right associativity).

Definition print_output (o : Output) : Run unit :=
  fun w => (mkWorld (data w) (cwd w) (stdout w ++ [o]) (log w), Some tt).

Definition print (line : string) : Run unit := print_output (Line line).

Definition write_file (path : string) (c : Content) : Run unit :=
  fun w => (mkWorld (data w) (<[path := c]> (cwd w)) (stdout w) (log w), Some tt).

Definition logging (records : list LogRecord) : Run unit :=
  fun w => (mkWorld (data w) (cwd w) (stdout w) (log w ++ records), Some tt).

Definition read_data : Run (option (list CsvFile)) :=
  fun w => (w, Some (data w)).

(** A computation that either gives a value or raises. *)
Definition try_value {A} (x : option A) : Run A := fun w => (w, x).

Section Pipeline.

Variable parse_datetime : string -> option Z.

Definition run_load_energy_data : Run DataFrame :=
  folder <- read_data ;;
  logging (snd (load_energy_data parse_datetime folder)) ;;
  ret (fst (load_energy_data parse_datetime folder)).

Definition run_create_dashboard (df : DataFrame) : Run unit :=
  d <- try_value (create_dashboard df) ;;
  write_file "dashboard.png" (Figure d).

Definition generate_summary (df : DataFrame) (summary_df : list SummaryRow)
  : Run unit :=
  t <- try_value (summary_text df summary_df) ;;
  write_file "summary.txt" (Text t) ;;
  print_output (Report t).

Definition main : Run unit :=
  print "Loading data..." ;;
  df <- run_load_energy_data ;;
  if empty df then
    print "No data found. Check /data folder."
  else
    print "Processing summaries..." ;;
    let summary_df := building_wise_summary df in
    write_file "building_summary.csv" (SummaryCsv summary_df) ;;
    write_file "cleaned_energy_data.csv" (TableCsv df) ;;
    print "Creating dashboard..." ;;
    run_create_dashboard df ;;
    print "Generating summary report..." ;;
    generate_summary df summary_df ;;
    print "DONE! Files generated:" ;;
    print "- dashboard.png" ;;
    print "- cleaned_energy_data.csv" ;;
    print "- building_summary.csv" ;;
    print "- summary.txt".

End Pipeline.

(** * Vocabulary of the properties *)

(** Ascending lexicographic order, as [String.compare] decides it. *)
Definition string_lt (a b : string) : Prop := String.compare a b = Lt.

(** The values filed under a name. *)
Fixpoint values_of (k : string) (groups : list (string * list (option Q)))
  : list (option Q) :=
  match groups with
  | [] => []
  | (k', vs) :: rest => if decide (k' = k) then vs else values_of k rest
  end.

(** The kwh values of the rows of one building, in table order. *)
Definition kwh_of_building (b : string) (rs : list Row) : list (option Q) :=
  kwh <$> filter (fun r => building r = b) rs.

(** The names of the building-wise summary, in its order. *)
Definition summary_names (df : DataFrame) : list string :=
  fst <$> groupby_building df.

(** The value a cell adds to a sum that skips NaN. *)
Definition addend (x : option Q) : Q := default 0%Q x.

(** [v] stands at position [i], no number of the series is larger, and
    every number before position [i] is smaller. *)
Definition first_max (xs : list (option Q)) (i : nat) (v : Q) : Prop :=
  xs !! i = Some (Some v)
  /\ (forall j w, xs !! j = Some (Some w) -> (w <= v)%Q)
  /\ (forall j w, (j < i)%nat -> xs !! j = Some (Some w) -> (w < v)%Q).

Definition best_so_far (xs : list (option Q)) (best : option (nat * Q)) : Prop :=
  match best with
  | None => Forall (fun x => x = None) xs
  | Some (i, v) => first_max xs i v
  end.

(** [self.buildings[building_name]] *)
Definition lookup_building (b : string) (m : BuildingManager) : option Building :=
  snd <$> find (fun p => String.eqb (fst p) b) m.

(** The readings of the rows of one building, in table order. *)
Definition readings_of_building (b : string) (rs : list Row) : list MeterReading :=
  (fun r => mkMeterReading (timestamp r) (kwh r))
    <$> filter (fun r => building r = b) rs.



(** The files of the working directory after a run over the table [df]. *)
Definition written_files (df : DataFrame) (files : gmap string Content)
  : gmap string Content :=
  if empty df then files
  else
    let summary_df := building_wise_summary df in
    let exported :=
      <["cleaned_energy_data.csv" := TableCsv df]>
        (<["building_summary.csv" := SummaryCsv summary_df]> files) in
    match create_dashboard df with
    | None => exported
    | Some d =>
        let drawn := <["dashboard.png" := Figure d]> exported in
        match summary_text df summary_df with
        | None => drawn
        | Some t => <["summary.txt" := Text t]> drawn
        end
    end.

Section LoaderVocabulary.

Variable parse_datetime : string -> option Z.

(** The rows a file adds to the merged table. *)
Definition contribution (file : CsvFile) : list Row :=
  match load_file parse_datetime file with
  | inr df => rows df
  | inl _ => []
  end.

(** The records a file adds to the log. *)
Definition file_log (file : CsvFile) : list LogRecord :=
  match load_file parse_datetime file with
  | inr _ => []
  | inl FileNotFoundError => [FileNotFound (stem file)]
  | inl e => [ErrorProcessing (stem file) e]
  end.

(** The merged table after a file. *)
Definition merge_file (combined : DataFrame) (file : CsvFile) : DataFrame :=
  match load_file parse_datetime file with
  | inr df => concat combined df
  | inl _ => combined
  end.

(** How a row of the merged table comes from a line of a file. *)
Definition row_from (name : string) (raw : RawRow) (r : Row) : Prop :=
  building r = name
  /\ kwh r = raw_kwh raw
  /\ other r = filter (fun kv => fst kv <> "building") (raw_other raw)
  /\ match raw_timestamp raw with
     | None => timestamp r = None
     | Some s => exists t, parse_datetime s = Some t /\ timestamp r = Some t
     end.

(** A file that fails validation. *)
Definition fails_validation (file : CsvFile) : Prop :=
  exists raw,
    read_csv file = inr raw
    /\ ("timestamp" ∉ raw_columns raw
        \/ "kwh" ∉ raw_columns raw
        \/ exists r s, r ∈ raw_rows raw /\ raw_timestamp r = Some s
                       /\ parse_datetime s = None).

End LoaderVocabulary.

Section PipelineVocabulary.

Variable parse_datetime : string -> option Z.

(** Running the script again leaves the content of a file as the first
    run left it. *)
Definition same_on_second_run (path : string) : Prop :=
  forall w : World,
    cwd (fst (main parse_datetime (fst (main parse_datetime w)))) !! path
    = cwd (fst (main parse_datetime w)) !! path.

(** The content of a file after a run does not depend on the order in
    which the files of the data folder are enumerated. *)
Definition independent_of_enumeration (path : string) : Prop :=
  forall (files files' : list CsvFile) (dir : gmap string Content)
         (out : list Output) (records : list LogRecord),
    files ≡ₚ files' ->
    NoDup (stem <$> files) ->
    cwd (fst (main parse_datetime (mkWorld (Some files) dir out records))) !! path
    = cwd (fst (main parse_datetime (mkWorld (Some files') dir out records))) !! path.

End PipelineVocabulary.

(** ** Sample data folders *)

Definition reading (t : string) (k : Q) : RawRow := mkRawRow (Some t) (Some k) [].

(** [bldgA.csv]: three readings, 1.0, 5.5 and 3.2 kWh. *)
Definition bldgA : CsvFile :=
  mkCsvFile "bldgA"
    (inr (mkRawFrame ["timestamp"; "kwh"]
            [reading "2024-01-01 10:00:00" 1;
             reading "2024-01-03 11:00:00" (11 # 2);
             reading "2024-01-03 18:30:00" (16 # 5)])).

(** [bldgB.csv]: a third column that the pipeline does not use. *)
Definition bldgB : CsvFile :=
  mkCsvFile "bldgB"
    (inr (mkRawFrame ["timestamp"; "kwh"; "meter"]
            [mkRawRow (Some "2024-01-02 09:00:00") (Some 2%Q)
                      [("meter", Str "M7")];
             mkRawRow (Some "2024-01-02 21:00:00") (Some (5 # 2)%Q)
                      [("meter", Str "M7")]])).

(** [no_kwh.csv]: no [kwh] column. *)
Definition no_kwh : CsvFile :=
  mkCsvFile "no_kwh"
    (inr (mkRawFrame ["timestamp"; "load"]
            [mkRawRow (Some "2024-01-01") None [("load", Num 4)]])).

(** [gaps.csv]: a line without timestamp and a line without kwh. *)
Definition gaps : CsvFile :=
  mkCsvFile "gaps"
    (inr (mkRawFrame ["timestamp"; "kwh"]
            [reading "2024-01-01 08:00:00" 1;
             mkRawRow None (Some 2%Q) [];
             mkRawRow (Some "2024-01-02 08:00:00") None []])).

(** [idle.csv]: no line has a kwh. *)
Definition idle : CsvFile :=
  mkCsvFile "idle"
    (inr (mkRawFrame ["timestamp"; "kwh"]
            [mkRawRow (Some "2024-01-01 08:00:00") None []])).

(** [tagged.csv]: the file has a [building] column of its own. *)
Definition tagged : CsvFile :=
  mkCsvFile "tagged"
    (inr (mkRawFrame ["timestamp"; "kwh"; "building"]
            [mkRawRow (Some "2024-01-01") (Some 3%Q) [("building", Str "Library")]])).

(** [east.csv] and [west.csv]: the same largest load at different times. *)
Definition east : CsvFile :=
  mkCsvFile "east"
    (inr (mkRawFrame ["timestamp"; "kwh"] [reading "2024-01-01 12:00:00" 5])).

Definition west : CsvFile :=
  mkCsvFile "west"
    (inr (mkRawFrame ["timestamp"; "kwh"] [reading "2024-01-02 12:00:00" 5])).

Definition table_of (files : list CsvFile) : DataFrame :=
  fst (load_energy_data iso8601 (Some files)).

(** ** The claims as the specification words them *)



(** No row has an empty timestamp or an empty kwh. *)
Definition no_null_cells (df : DataFrame) : Prop :=
  forall r, r ∈ rows df -> timestamp r <> None /\ kwh r <> None.

(** A peak load event is reported. *)
Definition peak_reported (df : DataFrame) : Prop :=
  exists peak t,
    peak_row df = Some peak
    /\ summary_text df (building_wise_summary df) = Some t.

(** A column of an ingested file has, in the merged table, the values
    of the file. *)
Definition column_passes_through (parse_datetime : string -> option Z)
    (file : CsvFile) (c : string) : Prop :=
  forall raw df,
    read_csv file = inr raw ->
    load_file parse_datetime file = inr df ->
    row_cell c <$> rows df = raw_cell c <$> raw_rows raw.

(** ** Vocabulary of the further properties *)






Section FurtherVocabulary.

Variable parse_datetime : string -> option Z.


End FurtherVocabulary.

(** * Properties *)

(** ** The order on building names *)

Lemma compare_refl (a : string) : String.compare a a = Eq.
Proof.
  pose proof (String.compare_antisym a a) as H.
  destruct (String.compare a a); simpl in H; congruence.
Qed.

Lemma compare_Gt_lt (a b : string) : String.compare a b = Gt -> string_lt b a.
Proof.
  unfold string_lt. rewrite (String.compare_antisym b a). intros ->. reflexivity.
Qed.

Lemma string_lt_le (a b : string) : string_lt a b <-> String.le a b /\ a <> b.
Proof.
  unfold string_lt, String.le, String.leb. split.
  - intros H. rewrite H. split; [exact I|].
    intros ->. rewrite compare_refl in H. discriminate.
  - intros [Hle Hne]. destruct (String.compare a b) eqn:E; [|reflexivity|].
    + apply String.compare_eq_iff in E. contradiction.
    + destruct Hle.
Qed.

Lemma string_lt_irrefl (a : string) : ~ string_lt a a.
Proof. unfold string_lt. rewrite compare_refl. discriminate. Qed.

Lemma string_lt_trans (a b c : string) :
  string_lt a b -> string_lt b c -> string_lt a c.
Proof.
  rewrite !string_lt_le. intros [Hab Nab] [Hbc Nbc]. split.
  - etrans; eassumption.
  - intros ->. apply Nab. apply (anti_symm String.le); assumption.
Qed.

#[local] Instance string_lt_transitive : Transitive string_lt.
Proof. intros a b c. apply string_lt_trans. Qed.

#[local] Instance string_lt_antisym : AntiSymm (=) string_lt.
Proof.
  intros a b H1 H2. exfalso.
  apply (string_lt_irrefl a). etrans; eassumption.
Qed.

Lemma string_lt_ne (a b : string) : string_lt a b -> a <> b.
Proof. intros H ->. exact (string_lt_irrefl _ H). Qed.

Lemma sorted_names_NoDup (l : list string) :
  StronglySorted string_lt l -> NoDup l.
Proof.
  induction 1 as [|a l Hl IH Hall]; constructor; [|assumption].
  intros Hin. rewrite Forall_forall in Hall.
  exact (string_lt_irrefl a (Hall a Hin)).
Qed.

(** ** Grouping *)

Lemma values_of_below k groups :
  Forall (string_lt k) (fst <$> groups) -> values_of k groups = [].
Proof.
  induction groups as [|[k' vs] rest IH]; simpl; [reflexivity|].
  intros H. apply Forall_cons in H as [Hk Hrest].
  destruct (decide (k' = k)) as [->|_]; [|auto].
  destruct (string_lt_irrefl _ Hk).
Qed.

Lemma group_insert_keys k v groups x :
  x ∈ fst <$> group_insert k v groups <-> x = k \/ x ∈ fst <$> groups.
Proof.
  induction groups as [|[k' vs] rest IH]; simpl.
  - rewrite elem_of_cons, elem_of_nil. tauto.
  - destruct (String.compare k k') eqn:E; simpl.
    + apply String.compare_eq_iff in E as ->.
      rewrite !elem_of_cons. tauto.
    + rewrite !elem_of_cons. tauto.
    + rewrite !elem_of_cons, IH. tauto.
Qed.

Lemma group_insert_sorted k v groups :
  StronglySorted string_lt (fst <$> groups) ->
  StronglySorted string_lt (fst <$> group_insert k v groups).
Proof.
  induction groups as [|[k' vs] rest IH]; simpl; intros Hs.
  - repeat constructor.
  - apply StronglySorted_inv in Hs as [Hrest Hall]. simpl in *.
    destruct (String.compare k k') eqn:E; simpl.
    + constructor; assumption.
    + constructor; [constructor; assumption|].
      constructor; [exact E|].
      eapply Forall_impl; [exact Hall|].
      intros y Hy. simpl in Hy. etrans; [exact E|exact Hy].
    + constructor; [auto|].
      apply Forall_forall. intros y Hy.
      apply group_insert_keys in Hy as [->|Hy].
      * apply compare_Gt_lt, E.
      * rewrite Forall_forall in Hall. auto.
Qed.

Lemma group_insert_values k v groups k' :
  StronglySorted string_lt (fst <$> groups) ->
  values_of k' (group_insert k v groups)
  = values_of k' groups ++ (if decide (k' = k) then [v] else []).
Proof.
  induction groups as [|[k0 vs] rest IH]; simpl; intros Hs.
  - repeat case_decide; congruence.
  - apply StronglySorted_inv in Hs as [Hrest Hall]. simpl in *.
    destruct (String.compare k k0) eqn:E; simpl.
    + apply String.compare_eq_iff in E as ->.
      repeat case_decide; try congruence. symmetry. apply app_nil_r.
    + assert (values_of k rest = []) as Hnil.
      { apply values_of_below. eapply Forall_impl; [exact Hall|].
        intros y Hy. simpl in Hy. etrans; [exact E|exact Hy]. }
      repeat case_decide; subst; try congruence.
      * rewrite compare_refl in E. discriminate.
      * rewrite Hnil. reflexivity.
      * symmetry. apply app_nil_r.
      * symmetry. apply app_nil_r.
    + specialize (IH Hrest).
      repeat case_decide; subst; try congruence.
      * rewrite compare_refl in E. discriminate.
      * symmetry. apply app_nil_r.
Qed.

Lemma groups_rebuild groups :
  StronglySorted string_lt (fst <$> groups) ->
  Forall (fun g => snd g <> []) groups ->
  groups = (fun k => (k, values_of k groups)) <$> (fst <$> groups).
Proof.
  induction groups as [|[k vs] rest IH]; simpl; intros Hs Hne; [reflexivity|].
  apply StronglySorted_inv in Hs as [Hrest Hall].
  apply Forall_cons in Hne as [_ Hne].
  rewrite decide_True by reflexivity. f_equal.
  rewrite (IH Hrest Hne) at 1.
  apply Forall_fmap_ext. apply Forall_forall. intros x Hx.
  rewrite Forall_forall in Hall. specialize (Hall x Hx). simpl in Hall.
  rewrite decide_False; [reflexivity|]. apply string_lt_ne, Hall.
Qed.

Lemma group_insert_nonempty k v groups :
  Forall (fun g => snd g <> []) groups ->
  Forall (fun g => snd g <> []) (group_insert k v groups).
Proof.
  induction groups as [|[k' vs] rest IH]; simpl; intros H.
  - repeat constructor. discriminate.
  - apply Forall_cons in H as [Hvs Hrest]. simpl in Hvs.
    destruct (String.compare k k').
    + constructor; [|assumption]. simpl.
      intros Happ. apply app_eq_nil in Happ as [_ ?]. discriminate.
    + constructor; [simpl; discriminate|]. constructor; assumption.
    + constructor; [assumption|]. apply IH, Hrest.
Qed.

Lemma groupby_invariant (rs : list Row) :
  let groups := fold_left (fun g r => group_insert (building r) (kwh r) g) rs [] in
  StronglySorted string_lt (fst <$> groups)
  /\ Forall (fun g => snd g <> []) groups
  /\ (forall k, k ∈ fst <$> groups <-> k ∈ building <$> rs)
  /\ (forall k, values_of k groups = kwh_of_building k rs).
Proof.
  induction rs as [|r rs IH] using rev_ind; simpl.
  - split; [constructor|split; [constructor|split]].
    + intros k. reflexivity.
    + intros k. reflexivity.
  - rewrite fold_left_app. simpl.
    destruct IH as (Hs & Hne & Hkeys & Hvals).
    split; [|split; [|split]].
    + apply group_insert_sorted, Hs.
    + apply group_insert_nonempty, Hne.
    + intros k.
      rewrite group_insert_keys, Hkeys, fmap_app, elem_of_app. simpl.
      rewrite list_elem_of_singleton. tauto.
    + intros k. rewrite group_insert_values by exact Hs.
      rewrite Hvals. unfold kwh_of_building.
      rewrite filter_app, fmap_app. f_equal.
      rewrite filter_cons, filter_nil.
      repeat case_decide; subst; try congruence; reflexivity.
Qed.

Lemma summary_names_sorted df : StronglySorted string_lt (summary_names df).
Proof. apply (groupby_invariant (rows df)). Qed.

Lemma summary_names_elem df k :
  k ∈ summary_names df <-> k ∈ building <$> rows df.
Proof. apply (groupby_invariant (rows df)). Qed.

Lemma groupby_building_spec df :
  groupby_building df
  = (fun k => (k, kwh_of_building k (rows df))) <$> summary_names df.
Proof.
  destruct (groupby_invariant (rows df)) as (Hs & Hne & _ & Hvals).
  unfold summary_names, groupby_building.
  rewrite (groups_rebuild _ Hs Hne) at 1.
  apply Forall_fmap_ext, Forall_forall. intros k _.
  rewrite Hvals. reflexivity.
Qed.

Lemma building_wise_summary_spec df :
  building_wise_summary df
  = (fun k => aggregate (k, kwh_of_building k (rows df))) <$> summary_names df.
Proof.
  unfold building_wise_summary. rewrite groupby_building_spec.
  rewrite <- list_fmap_compose. reflexivity.
Qed.

Lemma building_wise_summary_names df :
  sr_building <$> building_wise_summary df = summary_names df.
Proof.
  rewrite building_wise_summary_spec, <- list_fmap_compose.
  rewrite <- (list_fmap_id (summary_names df)) at 2.
  apply list_fmap_ext. intros; reflexivity.
Qed.

(** Two tables whose rows are filed under the same names have summaries
    with the same names in the same order. *)
Lemma summary_names_unique df df' :
  (forall k, k ∈ building <$> rows df <-> k ∈ building <$> rows df') ->
  summary_names df = summary_names df'.
Proof.
  intros H. apply (StronglySorted_unique string_lt).
  - apply summary_names_sorted.
  - apply summary_names_sorted.
  - apply NoDup_Permutation.
    + apply sorted_names_NoDup, summary_names_sorted.
    + apply sorted_names_NoDup, summary_names_sorted.
    + intros k. rewrite !summary_names_elem. apply H.
Qed.

(** ** Sums *)

(** Addition of fractions that are not reduced is a commutative monoid
    already for Leibniz equality. *)
Lemma Qplus_0_l_eq (q : Q) : (0 + q)%Q = q.
Proof. destruct q as [n d]. unfold Qplus. simpl. f_equal. lia. Qed.

Lemma Qplus_0_r_eq (q : Q) : (q + 0)%Q = q.
Proof.
  destruct q as [n d]. unfold Qplus. simpl. f_equal; [lia|].
  apply Pos.mul_1_r.
Qed.


Lemma Qplus_assoc_eq (p q r : Q) : (p + (q + r))%Q = ((p + q) + r)%Q.
Proof.
  destruct p as [n d], q as [m e], r as [k f]. unfold Qplus. simpl.
  f_equal; [|apply Pos.mul_assoc].
  rewrite !Pos2Z.inj_mul. ring.
Qed.

Lemma nansum_from (acc : Q) (xs : list (option Q)) :
  fold_left (fun a x => match x with Some v => (a + v)%Q | None => a end) xs acc
  = (acc + nansum xs)%Q.
Proof.
  unfold nansum. revert acc.
  induction xs as [|x xs IH]; intros acc; simpl.
  - symmetry. apply Qplus_0_r_eq.
  - rewrite IH. rewrite (IH (match x with Some v => _ | None => _ end)).
    destruct x as [v|]; rewrite Qplus_0_l_eq.
    + symmetry. apply Qplus_assoc_eq.
    + reflexivity.
Qed.

Lemma nansum_cons x xs : nansum (x :: xs) = (addend x + nansum xs)%Q.
Proof.
  unfold nansum at 1. simpl. rewrite nansum_from.
  destruct x as [v|]; simpl; rewrite ?Qplus_0_l_eq; reflexivity.
Qed.

Lemma nansum_app xs ys : nansum (xs ++ ys) = (nansum xs + nansum ys)%Q.
Proof.
  induction xs as [|x xs IH]; simpl.
  - symmetry. apply Qplus_0_l_eq.
  - rewrite !nansum_cons, IH. apply Qplus_assoc_eq.
Qed.





(** ** The first position of the largest number *)

Lemma lookup_snoc_Some {A} (l : list A) (x y : A) (j : nat) :
  (l ++ [x]) !! j = Some y ->
  ((j < length l)%nat /\ l !! j = Some y) \/ (j = length l /\ y = x).
Proof.
  intros H. destruct (decide (j < length l)%nat) as [Hlt|Hge].
  - rewrite lookup_app_l in H by exact Hlt. auto.
  - rewrite lookup_app_r in H by lia.
    destruct (j - length l)%nat eqn:E; simpl in H; [|discriminate].
    right. split; [lia|congruence].
Qed.

Lemma best_so_far_step (pre : list (option Q)) best x :
  best_so_far pre best ->
  best_so_far (pre ++ [x])
    match x with
    | None => best
    | Some v =>
        match best with
        | None => Some (length pre, v)
        | Some (j, b) => if Qle_bool v b then best else Some (length pre, v)
        end
    end.
Proof.
  intros H. destruct x as [v|].
  - destruct best as [[j b]|]; simpl in *.
    + destruct H as (Hj & Hle & Hlt).
      destruct (Qle_bool v b) eqn:E; simpl.
      * apply Qle_bool_iff in E. split; [|split].
        -- rewrite lookup_app_l; [exact Hj|]. eapply lookup_lt_Some, Hj.
        -- intros k w Hk. apply lookup_snoc_Some in Hk as [[_ Hk]|[_ Hk]].
           ++ eapply Hle, Hk.
           ++ injection Hk as ->. exact E.
        -- intros k w Hkj Hk. apply lookup_snoc_Some in Hk as [[_ Hk]|[-> _]].
           ++ eapply Hlt; eassumption.
           ++ apply lookup_lt_Some in Hj. lia.
      * assert (b < v)%Q as Hbv.
        { apply Qnot_le_lt. intros Hvb. apply Qle_bool_iff in Hvb. congruence. }
        split; [|split].
        -- rewrite lookup_app_r by lia. rewrite Nat.sub_diag. reflexivity.
        -- intros k w Hk. apply lookup_snoc_Some in Hk as [[_ Hk]|[_ Hk]].
           ++ apply Qlt_le_weak. eapply Qle_lt_trans; [eapply Hle, Hk|exact Hbv].
           ++ injection Hk as ->. apply Qle_refl.
        -- intros k w Hkj Hk. apply lookup_snoc_Some in Hk as [[_ Hk]|[-> _]].
           ++ eapply Qle_lt_trans; [eapply Hle, Hk|exact Hbv].
           ++ lia.
    + split; [|split].
      * rewrite lookup_app_r by lia. rewrite Nat.sub_diag. reflexivity.
      * intros k w Hk. apply lookup_snoc_Some in Hk as [[_ Hk]|[_ Hk]].
        -- rewrite Forall_forall in H.
           apply list_elem_of_lookup_2 in Hk. apply H in Hk. discriminate.
        -- injection Hk as ->. apply Qle_refl.
      * intros k w Hkj Hk. rewrite lookup_app_l in Hk by exact Hkj.
        rewrite Forall_forall in H.
        apply list_elem_of_lookup_2 in Hk. apply H in Hk. discriminate.
  - destruct best as [[j b]|]; simpl in *.
    + destruct H as (Hj & Hle & Hlt). split; [|split].
      * rewrite lookup_app_l; [exact Hj|]. eapply lookup_lt_Some, Hj.
      * intros k w Hk. apply lookup_snoc_Some in Hk as [[_ Hk]|[_ Hk]].
        -- eapply Hle, Hk.
        -- discriminate.
      * intros k w Hkj Hk. apply lookup_snoc_Some in Hk as [[_ Hk]|[_ Hk]].
        -- eapply Hlt; eassumption.
        -- discriminate.
    + apply Forall_app. split; [exact H|]. repeat constructor.
Qed.

Lemma idxmax_from_spec (xs pre : list (option Q)) best :
  best_so_far pre best ->
  best_so_far (pre ++ xs) (idxmax_from (length pre) best xs).
Proof.
  revert pre best. induction xs as [|x xs IH]; intros pre best H; simpl.
  - rewrite app_nil_r. exact H.
  - pose proof (best_so_far_step pre best x H) as Hstep.
    replace (pre ++ x :: xs) with ((pre ++ [x]) ++ xs)
      by (rewrite <- app_assoc; reflexivity).
    replace (S (length pre)) with (length (pre ++ [x]))
      by (rewrite length_app; simpl; lia).
    destruct x as [v|]; [|apply IH, Hstep].
    destruct best as [[j b]|]; [|apply IH, Hstep].
    destruct (Qle_bool v b); apply IH, Hstep.
Qed.

Lemma idxmax_Some (xs : list (option Q)) i :
  idxmax xs = Some i -> exists v, first_max xs i v.
Proof.
  unfold idxmax. intros H.
  pose proof (idxmax_from_spec xs [] None (List.Forall_nil _)) as Hspec.
  simpl in Hspec. destruct (idxmax_from 0 None xs) as [[j v]|]; [|discriminate].
  simpl in H. injection H as ->. exists v. exact Hspec.
Qed.

Lemma idxmax_None (xs : list (option Q)) :
  idxmax xs = None <-> Forall (fun x => x = None) xs.
Proof.
  unfold idxmax.
  pose proof (idxmax_from_spec xs [] None (List.Forall_nil _)) as Hspec.
  simpl in Hspec. destruct (idxmax_from 0 None xs) as [[j v]|]; simpl.
  - split; [discriminate|]. intros Hall. destruct Hspec as (Hj & _).
    rewrite Forall_forall in Hall.
    apply list_elem_of_lookup_2 in Hj. apply Hall in Hj. discriminate.
  - split; auto.
Qed.

Lemma first_max_unique xs i v j w :
  first_max xs i v -> first_max xs j w -> i = j /\ v = w.
Proof.
  intros (Hi & Hle & Hlt) (Hj & Hle' & Hlt').
  assert (i = j) as ->.
  { destruct (lt_eq_lt_dec i j) as [[Hij| ->]|Hji]; [|reflexivity|].
    - pose proof (Hlt' _ _ Hij Hi). pose proof (Hle _ _ Hj).
      exfalso. eapply Qlt_not_le; eassumption.
    - pose proof (Hlt _ _ Hji Hj). pose proof (Hle' _ _ Hi).
      exfalso. eapply Qlt_not_le; eassumption. }
  split; [reflexivity|congruence].
Qed.

(** ** The object model against the summary *)

Lemma add_reading_lookup m b t k b' :
  lookup_building b' (BuildingManager_add_reading m b t k)
  = if decide (b' = b)
    then Some (Building_add_reading
                 (default (mkBuilding b []) (lookup_building b m)) t k)
    else lookup_building b' m.
Proof.
  unfold lookup_building.
  induction m as [|[n B] m IH]; simpl.
  - destruct (String.eqb_spec b b'); case_decide; subst;
      try congruence; reflexivity.
  - destruct (String.eqb_spec n b) as [->|Hnb]; simpl.
    + destruct (String.eqb_spec b b'); case_decide; subst;
        try congruence; reflexivity.
    + destruct (String.eqb_spec n b') as [->|Hnb'].
      * rewrite decide_False by congruence. reflexivity.
      * exact IH.
Qed.

Lemma filter_building_absent (b : string) (rs : list Row) :
  b ∉ building <$> rs -> filter (fun r => building r = b) rs = [].
Proof.
  induction rs as [|r rs IH]; intros H; [reflexivity|].
  rewrite fmap_cons, not_elem_of_cons in H. destruct H as [Hne Hrs].
  rewrite filter_cons, decide_False by congruence. auto.
Qed.

Lemma manager_of_lookup (df : DataFrame) (b : string) :
  lookup_building b (manager_of df)
  = if decide (b ∈ building <$> rows df)
    then Some (mkBuilding b (readings_of_building b (rows df)))
    else None.
Proof.
  unfold manager_of. generalize (rows df) as rs. clear df.
  induction rs as [|r rs IH] using rev_ind; simpl.
  - reflexivity.
  - rewrite fold_left_app. simpl. rewrite add_reading_lookup.
    unfold readings_of_building. rewrite filter_app, !fmap_app.
    rewrite filter_cons, filter_nil. simpl.
    destruct (decide (b = building r)) as [->|Hne].
    + rewrite IH. rewrite (decide_True (P := building r ∈ _ ++ _)).
      2:{ apply elem_of_app. right. apply list_elem_of_singleton. reflexivity. }
      rewrite (decide_True (P := building r = building r)) by reflexivity.
      case_decide; [reflexivity|].
      rewrite filter_building_absent by assumption. reflexivity.
    + rewrite IH. rewrite (decide_False (P := building r = b)) by congruence.
      simpl. rewrite app_nil_r.
      destruct (decide (b ∈ building <$> rs)) as [Hin|Hnin].
      * rewrite decide_True; [reflexivity|]. apply elem_of_app. left. exact Hin.
      * rewrite decide_False; [reflexivity|]. intros Happ.
        apply elem_of_app in Happ as [Hl|Hr]; [contradiction|].
        apply list_elem_of_singleton in Hr. congruence.
Qed.


(** C10: the building-wise summary has exactly one row per distinct
    building name of the table, and its rows stand in ascending
    lexicographic order of the names, whatever the order of the rows of
    the table. *)
Theorem building_wise_summary_sorted_distinct (df : DataFrame) :
  let names := sr_building <$> building_wise_summary df in
  StronglySorted string_lt names
  /\ NoDup names
  /\ (forall b, b ∈ names <-> b ∈ building <$> rows df)
  /\ (forall df', rows df' ≡ₚ rows df ->
        sr_building <$> building_wise_summary df' = names).
Proof.
  simpl. rewrite building_wise_summary_names.
  split; [|split; [|split]].
  - apply summary_names_sorted.
  - apply sorted_names_NoDup, summary_names_sorted.
  - apply summary_names_elem.
  - intros df' Hperm. rewrite building_wise_summary_names.
    apply summary_names_unique. intros k. rewrite Hperm. reflexivity.
Qed.


(** ** The reporter *)

Lemma dated_elem (df : DataFrame) (r : Row) (t : Z) :
  r ∈ rows df -> timestamp r = Some t -> (day_of t, kwh r) ∈ dated df.
Proof.
  intros Hr Ht. unfold dated. apply list_elem_of_omap.
  exists r. rewrite Ht. auto.
Qed.

Lemma resample_sum_is_Some label step (df : DataFrame) :
  (exists r, r ∈ rows df /\ timestamp r <> None) ->
  is_Some (resample_sum label step df).
Proof.
  intros (r & Hr & Ht). unfold resample_sum.
  destruct (rows df) as [|r0 rs] eqn:Hrows; [inversion Hr|].
  rewrite <- Hrows in Hr.
  destruct (timestamp r) as [t|] eqn:E; [|contradiction].
  pose proof (dated_elem df r t Hr E) as Hin.
  destruct (dated df) as [|o obs]; [inversion Hin|]. simpl. eauto.
Qed.

Lemma highest_row_spec (summary_df : list SummaryRow) :
  summary_df <> [] ->
  exists i top,
    highest_row summary_df = Some top
    /\ summary_df !! i = Some top
    /\ first_max (Some ∘ sr_total <$> summary_df) i (sr_total top).
Proof.
  intros Hne. unfold highest_row.
  destruct (idxmax (Some ∘ sr_total <$> summary_df)) as [i|] eqn:E.
  - destruct (idxmax_Some _ _ E) as [v Hv].
    pose proof Hv as (Hi & _). rewrite list_lookup_fmap in Hi.
    destruct (summary_df !! i) as [top|] eqn:Htop; [|discriminate].
    simpl in Hi. injection Hi as <-.
    exists i, top. simpl. rewrite Htop. auto.
  - apply idxmax_None in E. destruct summary_df as [|row rest]; [contradiction|].
    apply Forall_cons in E as [E _]. discriminate.
Qed.

Lemma peak_row_spec (df : DataFrame) :
  (exists r, r ∈ rows df /\ kwh r <> None) ->
  exists i peak v,
    peak_row df = Some peak
    /\ rows df !! i = Some peak
    /\ kwh peak = Some v
    /\ first_max (kwh <$> rows df) i v.
Proof.
  intros (r & Hr & Hk). unfold peak_row.
  destruct (idxmax (kwh <$> rows df)) as [i|] eqn:E.
  - destruct (idxmax_Some _ _ E) as [v Hv].
    pose proof Hv as (Hi & _). rewrite list_lookup_fmap in Hi.
    destruct (rows df !! i) as [peak|] eqn:Hpeak; [|discriminate].
    simpl in Hi. injection Hi as Hi.
    exists i, peak, v. simpl. rewrite Hpeak. auto.
  - apply idxmax_None in E. rewrite Forall_forall in E.
    exfalso. apply Hk, E. apply list_elem_of_fmap. eauto.
Qed.

(** Without any number in the kwh column there is no peak row. *)
Lemma peak_row_all_nan (df : DataFrame) :
  Forall (fun r => kwh r = None) (rows df) -> peak_row df = None.
Proof.
  intros H. unfold peak_row.
  assert (idxmax (kwh <$> rows df) = None) as ->; [|reflexivity].
  apply idxmax_None. apply Forall_fmap. exact H.
Qed.


(** C6, amended: for every table in which some row has a kwh that is
    not NaN, the peak load event is the first row, in table order, whose
    kwh is the largest number of the column; every report composed from
    the table carries the timestamp and the kwh of that row unchanged,
    and a report is composed as soon as the summary is not empty and some
    row has a timestamp.  In particular, a table whose kwh column is
    1.0, 5.5, 3.2 has its second row as peak, with load 5.5.  A table in
    which no row has a kwh has no peak row, and no report is composed
    from it. *)
Theorem peak_load_is_first_maximum :
  (forall df : DataFrame,
     (exists r, r ∈ rows df /\ kwh r <> None) ->
     exists i peak v,
       peak_row df = Some peak
       /\ rows df !! i = Some peak
       /\ kwh peak = Some v
       /\ (forall r w, r ∈ rows df -> kwh r = Some w -> (w <= v)%Q)
       /\ (forall j r w, (j < i)%nat -> rows df !! j = Some r ->
             kwh r = Some w -> (w < v)%Q)
       /\ (forall s t, summary_text df s = Some t ->
             peak_time t = timestamp peak /\ peak_load t = Some v)
       /\ (forall s, s <> [] -> (exists r, r ∈ rows df /\ timestamp r <> None) ->
             is_Some (summary_text df s)))
  /\ (forall cols r1 r2 r3,
        kwh r1 = Some 1%Q -> kwh r2 = Some (11 # 2)%Q -> kwh r3 = Some (16 # 5)%Q ->
        peak_row (mkDataFrame cols [r1; r2; r3]) = Some r2
        /\ forall s t, summary_text (mkDataFrame cols [r1; r2; r3]) s = Some t ->
             peak_time t = timestamp r2 /\ peak_load t = Some (11 # 2)%Q)
  /\ (forall df : DataFrame,
        Forall (fun r => kwh r = None) (rows df) ->
        peak_row df = None /\ forall s, summary_text df s = None).
Proof.
  split; [|split].
  - intros df Hex.
    destruct (peak_row_spec df Hex) as (i & peak & v & Hpeak & Hi & Hv & Hmax).
    destruct Hmax as (_ & Hle & Hlt).
    exists i, peak, v. split; [exact Hpeak|]. split; [exact Hi|].
    split; [exact Hv|]. split; [|split; [|split]].
    + intros r w Hr Hw. apply list_elem_of_lookup_1 in Hr as [j Hj].
      apply (Hle j). rewrite list_lookup_fmap, Hj. simpl. congruence.
    + intros j r w Hji Hj Hw. apply (Hlt j); [exact Hji|].
      rewrite list_lookup_fmap, Hj. simpl. congruence.
    + intros s t Ht. unfold summary_text in Ht.
      destruct (highest_row s); simpl in Ht; [|discriminate].
      rewrite Hpeak in Ht. simpl in Ht.
      destruct (calculate_daily_totals df); simpl in Ht; [|discriminate].
      destruct (calculate_weekly_aggregates df); simpl in Ht; [|discriminate].
      injection Ht as <-. simpl. auto.
    + intros s Hs Hts. unfold summary_text.
      destruct (highest_row_spec s Hs) as (? & top & -> & _). simpl.
      rewrite Hpeak. simpl.
      destruct (resample_sum_is_Some id 1 df Hts) as [daily Hd].
      destruct (resample_sum_is_Some week_end_of 7 df Hts) as [weekly Hw].
      unfold calculate_daily_totals, calculate_weekly_aggregates.
      rewrite Hd, Hw. simpl. eauto.
  - intros cols r1 r2 r3 H1 H2 H3.
    assert (peak_row (mkDataFrame cols [r1; r2; r3]) = Some r2) as Hpeak.
    { unfold peak_row, idxmax. simpl. rewrite H1, H2, H3. reflexivity. }
    split; [exact Hpeak|].
    intros s t Ht. unfold summary_text in Ht.
    destruct (highest_row s); simpl in Ht; [|discriminate].
    rewrite Hpeak in Ht. simpl in Ht.
    destruct (calculate_daily_totals _); simpl in Ht; [|discriminate].
    destruct (calculate_weekly_aggregates _); simpl in Ht; [|discriminate].
    injection Ht as <-. simpl. auto.
  - intros df Hnan. pose proof (peak_row_all_nan df Hnan) as Hpeak.
    split; [exact Hpeak|].
    intros s. unfold summary_text. rewrite Hpeak.
    destruct (highest_row s); reflexivity.
Qed.

(** ** Conservation of the daily totals *)
















(** ** The loader *)

Section LoaderProperties.

Variable parse_datetime : string -> option Z.

Lemma load_step_spec acc file :
  load_step parse_datetime acc file
  = (merge_file parse_datetime (fst acc) file,
     snd acc ++ file_log parse_datetime file).
Proof.
  unfold load_step, merge_file, file_log.
  destruct (load_file parse_datetime file) as [e|df].
  - destruct e; reflexivity.
  - rewrite app_nil_r. reflexivity.
Qed.

Lemma load_fold_spec files acc :
  fold_left (load_step parse_datetime) files acc
  = (fold_left (merge_file parse_datetime) files (fst acc),
     snd acc ++ mjoin (file_log parse_datetime <$> files)).
Proof.
  revert acc. induction files as [|f files IH]; intros acc; simpl.
  - rewrite app_nil_r. destruct acc; reflexivity.
  - rewrite IH, load_step_spec. simpl. rewrite <- app_assoc. reflexivity.
Qed.

Lemma merge_rows files combined :
  rows (fold_left (merge_file parse_datetime) files combined)
  = rows combined ++ mjoin (contribution parse_datetime <$> files).
Proof.
  revert combined. induction files as [|f files IH]; intros combined; simpl.
  - symmetry. apply app_nil_r.
  - rewrite IH. unfold merge_file, contribution.
    destruct (load_file parse_datetime f) as [e|df]; simpl.
    + reflexivity.
    + rewrite <- app_assoc. reflexivity.
Qed.

Lemma merge_columns files combined c :
  c ∈ columns combined ->
  c ∈ columns (fold_left (merge_file parse_datetime) files combined).
Proof.
  revert combined. induction files as [|f files IH]; intros combined H; simpl.
  - exact H.
  - apply IH. unfold merge_file. destruct (load_file parse_datetime f); [exact H|].
    simpl. apply elem_of_app. left. exact H.
Qed.

Lemma concat_columns a b c :
  c ∈ columns b -> c ∈ columns (concat a b).
Proof.
  intros H. simpl. apply elem_of_app.
  destruct (decide (c ∈ columns a)); [left; assumption|right].
  apply list_elem_of_difference. auto.
Qed.

Lemma loaded_rows files :
  rows (fst (load_energy_data parse_datetime (Some files)))
  = mjoin (contribution parse_datetime <$> files).
Proof.
  unfold load_energy_data. rewrite load_fold_spec. cbn [fst snd].
  rewrite merge_rows. reflexivity.
Qed.

Lemma standardize_spec name rs out :
  standardize parse_datetime name rs = inr out ->
  Forall2 (row_from parse_datetime name) rs out.
Proof.
  revert out. induction rs as [|r rs IH]; intros out; simpl.
  - intros [= <-]. constructor.
  - unfold to_datetime.
    destruct (raw_timestamp r) as [s|] eqn:Hs.
    + destruct (parse_datetime s) as [t|] eqn:Ht; [|discriminate].
      destruct (standardize parse_datetime name rs) as [e|out']; [discriminate|].
      intros [= <-]. constructor; [|auto].
      unfold row_from. rewrite Hs. simpl. eauto 6.
    + destruct (standardize parse_datetime name rs) as [e|out']; [discriminate|].
      intros [= <-]. constructor; [|auto].
      unfold row_from. rewrite Hs. simpl. auto.
Qed.

Lemma standardize_fails name rs r s :
  r ∈ rs -> raw_timestamp r = Some s -> parse_datetime s = None ->
  exists e, standardize parse_datetime name rs = inl e.
Proof.
  intros Hr Hs Hp. induction rs as [|r0 rs IH]; [inversion Hr|].
  simpl. apply elem_of_cons in Hr as [<-|Hr].
  - unfold to_datetime. rewrite Hs, Hp. eauto.
  - destruct (to_datetime parse_datetime (raw_timestamp r0)); [eauto|].
    destruct (IH Hr) as [e ->]. eauto.
Qed.

Lemma assign_column_elem label cols c :
  c ∈ assign_column label cols <-> c ∈ cols \/ c = label.
Proof.
  unfold assign_column. case_bool_decide as H.
  - split; [auto|]. intros [?| ->]; assumption.
  - rewrite elem_of_app, list_elem_of_singleton. reflexivity.
Qed.

Lemma load_file_inr file df :
  load_file parse_datetime file = inr df ->
  exists raw,
    read_csv file = inr raw
    /\ "timestamp" ∈ raw_columns raw
    /\ "kwh" ∈ raw_columns raw
    /\ columns df = assign_column "building" (raw_columns raw)
    /\ Forall2 (row_from parse_datetime (stem file)) (raw_rows raw) (rows df).
Proof.
  unfold load_file. destruct (read_csv file) as [e|raw]; [discriminate|].
  case_bool_decide as Hts; [|discriminate].
  destruct (standardize parse_datetime (stem file) (raw_rows raw)) as [e|rs] eqn:Hstd;
    [discriminate|].
  case_bool_decide as Hk; [|discriminate].
  intros [= <-]. exists raw. simpl.
  apply assign_column_elem in Hts as [Hts|Hts]; [|discriminate].
  apply assign_column_elem in Hk as [Hk|Hk]; [|discriminate].
  repeat split; try assumption. apply standardize_spec, Hstd.
Qed.

Lemma fails_validation_inl file :
  fails_validation parse_datetime file ->
  exists e, load_file parse_datetime file = inl e /\ e <> FileNotFoundError.
Proof.
  intros (raw & Hraw & Hbad). unfold load_file. rewrite Hraw.
  case_bool_decide as Hts.
  2:{ eexists. split; [reflexivity|discriminate]. }
  apply assign_column_elem in Hts as [Hts|Hts]; [|discriminate].
  destruct (standardize parse_datetime (stem file) (raw_rows raw)) as [e|rs] eqn:Hstd.
  - exists e. split; [reflexivity|].
    intros ->. clear -Hstd. revert Hstd.
    generalize (raw_rows raw) as l. intros l. induction l as [|r l IH]; simpl.
    + discriminate.
    + unfold to_datetime. destruct (raw_timestamp r) as [s|].
      * destruct (parse_datetime s); [|discriminate].
        destruct (standardize parse_datetime (stem file) l); [|discriminate].
        intros [= ->]. auto.
      * destruct (standardize parse_datetime (stem file) l); [|discriminate].
        intros [= ->]. auto.
  - case_bool_decide as Hk.
    2:{ eexists. split; [reflexivity|discriminate]. }
    apply assign_column_elem in Hk as [Hk|Hk]; [|discriminate].
    destruct Hbad as [?|[?|(r & s & Hr & Hs & Hp)]]; [contradiction..|].
    destruct (standardize_fails (stem file) _ r s Hr Hs Hp) as [e He].
    congruence.
Qed.

Lemma lookup_cell_filter (c : string) (cs : list (string * cell)) :
  c <> "building" ->
  lookup_cell c (filter (fun kv => fst kv <> "building") cs) = lookup_cell c cs.
Proof.
  intros Hc. unfold lookup_cell.
  induction cs as [|[k v] cs IH]; [reflexivity|].
  rewrite filter_cons. simpl.
  destruct (decide (k <> "building")) as [Hk|Hk]; simpl.
  - destruct (String.eqb_spec k c); [reflexivity|exact IH].
  - destruct (String.eqb_spec k c) as [->|_]; [|exact IH].
    destruct Hk. exact Hc.
Qed.

Lemma row_from_cell name raw r (c : string) :
  row_from parse_datetime name raw r -> c <> "timestamp" -> c <> "building" ->
  row_cell c r = raw_cell c raw.
Proof.
  intros (_ & Hk & Ho & _) Hts Hb. unfold row_cell, raw_cell.
  destruct (String.eqb_spec c "timestamp"); [contradiction|].
  destruct (String.eqb_spec c "kwh"); [rewrite Hk; reflexivity|].
  destruct (String.eqb_spec c "building"); [contradiction|].
  rewrite Ho. apply lookup_cell_filter, Hb.
Qed.

(** C3, amended: the rows of the merged table are, file after file in
    the order of enumeration, the rows each file contributes; a file
    contributes either nothing or one row for each of its lines, in
    order, with the kwh of the line (NaN for an empty cell), the name of
    the file, and as timestamp NaT for an empty cell and the instant
    read from the text otherwise.  Empty cells are thus kept, and no
    row is dropped on its own. *)
Theorem loader_keeps_whole_files (files : list CsvFile) :
  rows (fst (load_energy_data parse_datetime (Some files)))
  = mjoin (contribution parse_datetime <$> files)
  /\ Forall (fun file =>
               contribution parse_datetime file = []
               \/ exists raw,
                    read_csv file = inr raw
                    /\ Forall2 (row_from parse_datetime (stem file)) (raw_rows raw)
                               (contribution parse_datetime file))
            files.
Proof.
  split; [apply loaded_rows|].
  apply Forall_forall. intros file _. unfold contribution.
  destruct (load_file parse_datetime file) as [e|df] eqn:E; [left; reflexivity|].
  right. destruct (load_file_inr file df E) as (raw & Hraw & _ & _ & _ & Hrows).
  eauto.
Qed.

(** C4: a file that fails validation (no [timestamp] column, no [kwh]
    column, or a line whose timestamp text cannot be read) contributes
    no row; the run goes on: the merged table is the one obtained
    without that file, made of the rows of the files before and after
    it, and the failure is logged. *)
Theorem failing_file_contributes_nothing (files1 files2 : list CsvFile)
    (file : CsvFile) :
  fails_validation parse_datetime file ->
  contribution parse_datetime file = []
  /\ fst (load_energy_data parse_datetime (Some (files1 ++ file :: files2)))
     = fst (load_energy_data parse_datetime (Some (files1 ++ files2)))
  /\ rows (fst (load_energy_data parse_datetime (Some (files1 ++ file :: files2))))
     = mjoin (contribution parse_datetime <$> files1)
       ++ mjoin (contribution parse_datetime <$> files2)
  /\ exists e, ErrorProcessing (stem file) e
               ∈ snd (load_energy_data parse_datetime
                        (Some (files1 ++ file :: files2))).
Proof.
  intros Hbad. destruct (fails_validation_inl file Hbad) as (e & He & Hne).
  assert (contribution parse_datetime file = []) as Hnil.
  { unfold contribution. rewrite He. reflexivity. }
  split; [exact Hnil|]. split; [|split].
  - unfold load_energy_data. rewrite !load_fold_spec. cbn [fst snd].
    rewrite !fold_left_app. simpl. unfold merge_file at 2. rewrite He.
    reflexivity.
  - rewrite loaded_rows, fmap_app, fmap_cons, join_app. simpl.
    rewrite Hnil. reflexivity.
  - exists e. unfold load_energy_data. rewrite load_fold_spec. cbn [fst snd].
    rewrite fmap_app, fmap_cons, join_app. simpl.
    apply elem_of_app. right. apply elem_of_app. left.
    unfold file_log. rewrite He.
    destruct e; try contradiction; apply list_elem_of_singleton; reflexivity.
Qed.

(** C8, amended: for every file that is ingested, its rows stand in
    the merged table between those of the files before and after it,
    one for each line, and every column of the file other than
    [timestamp] and [building] is a column of the merged table with,
    on those rows, the values of the file; the [building] column holds
    the name of the file on those rows. *)
Theorem passthrough_columns_unchanged (files1 files2 : list CsvFile)
    (file : CsvFile) (raw : RawFrame) (df : DataFrame) :
  read_csv file = inr raw ->
  load_file parse_datetime file = inr df ->
  let merged :=
    fst (load_energy_data parse_datetime (Some (files1 ++ file :: files2))) in
  rows merged
  = rows (fst (load_energy_data parse_datetime (Some files1)))
    ++ rows df ++ mjoin (contribution parse_datetime <$> files2)
  /\ length (rows df) = length (raw_rows raw)
  /\ (forall c, c ∈ raw_columns raw -> c <> "timestamp" -> c <> "building" ->
        c ∈ columns merged
        /\ row_cell c <$> rows df = raw_cell c <$> raw_rows raw)
  /\ Forall (fun r => row_cell "building" r = Str (stem file)) (rows df).
Proof.
  intros Hraw Hdf merged.
  destruct (load_file_inr file df Hdf) as (raw' & Hraw' & _ & _ & Hcols & Hrows).
  assert (raw' = raw) as -> by congruence.
  split; [|split; [|split]].
  - unfold merged. rewrite !loaded_rows, fmap_app, fmap_cons, join_app. simpl.
    unfold contribution at 2. rewrite Hdf. reflexivity.
  - symmetry. eapply Forall2_length, Hrows.
  - intros c Hc Hts Hb. split.
    + unfold merged, load_energy_data. rewrite load_fold_spec. cbn [fst snd].
      rewrite fold_left_app. simpl. apply merge_columns.
      unfold merge_file at 1. rewrite Hdf. apply concat_columns.
      rewrite Hcols. apply assign_column_elem. left. exact Hc.
    + clear -Hrows Hts Hb. induction Hrows as [|x y l k Hxy _ IH]; [reflexivity|].
      rewrite !fmap_cons. f_equal; [|exact IH].
      eapply row_from_cell; eassumption.
  - clear -Hrows. induction Hrows as [|x y l k Hxy _ IH]; constructor; [|exact IH].
    destruct Hxy as (Hname & _). unfold row_cell. simpl. rewrite Hname. reflexivity.
Qed.

End LoaderProperties.

(** ** The pipeline *)

Section PipelineProperties.

Variable parse_datetime : string -> option Z.

Lemma main_empty (w : World) :
  empty (fst (load_energy_data parse_datetime (data w))) = true ->
  main parse_datetime w
  = (mkWorld (data w) (cwd w)
       (stdout w ++ [Line "Loading data...";
                     Line "No data found. Check /data folder."])
       (log w ++ snd (load_energy_data parse_datetime (data w))),
     Some tt).
Proof.
  intros H. unfold main, run_load_energy_data, bind, print, print_output,
    read_data, logging, ret. simpl. rewrite H. simpl.
  rewrite <- app_assoc. reflexivity.
Qed.

Lemma main_world (w : World) :
  data (fst (main parse_datetime w)) = data w
  /\ cwd (fst (main parse_datetime w))
     = written_files (fst (load_energy_data parse_datetime (data w))) (cwd w).
Proof.
  unfold written_files.
  destruct (empty (fst (load_energy_data parse_datetime (data w)))) eqn:E.
  - rewrite (main_empty w E). auto.
  - unfold main, run_load_energy_data, run_create_dashboard, generate_summary,
      bind, print, print_output, read_data, logging, ret, write_file, try_value.
    simpl. rewrite E. simpl.
    destruct (create_dashboard _) as [d|]; simpl; [|auto].
    destruct (summary_text _ _) as [t|]; simpl; auto.
Qed.

Lemma written_files_twice df (files : gmap string Content) :
  written_files df (written_files df files) = written_files df files.
Proof.
  unfold written_files. destruct (empty df); [reflexivity|].
  destruct (create_dashboard df) as [d|].
  - destruct (summary_text df (building_wise_summary df)) as [t|];
      apply map_eq; intros k; rewrite !lookup_insert;
      repeat case_decide; reflexivity.
  - apply map_eq; intros k; rewrite !lookup_insert;
      repeat case_decide; reflexivity.
Qed.

Lemma main_twice (w : World) :
  cwd (fst (main parse_datetime (fst (main parse_datetime w))))
  = cwd (fst (main parse_datetime w)).
Proof.
  destruct (main_world (fst (main parse_datetime w))) as [_ ->].
  destruct (main_world w) as [-> ->].
  apply written_files_twice.
Qed.

Lemma missing_folder_empty :
  empty (fst (load_energy_data parse_datetime None)) = true.
Proof. reflexivity. Qed.

Lemma no_contribution_empty (files : list CsvFile) :
  Forall (fun f => contribution parse_datetime f = []) files ->
  empty (fst (load_energy_data parse_datetime (Some files))) = true.
Proof.
  intros H. unfold empty. rewrite loaded_rows.
  assert (mjoin (contribution parse_datetime <$> files) = []) as ->;
    [|reflexivity].
  induction H as [|f files Hf _ IH]; [reflexivity|].
  rewrite fmap_cons. simpl. rewrite Hf, IH. reflexivity.
Qed.

(** C5: when ingestion yields an empty table (the data folder does not
    exist, no file contributes a row, or the table is empty for any
    other reason), the script prints its two messages and stops
    without an exception: the files of the working directory, the four
    outputs among them, are what they were, nothing else is printed,
    and only the loader's records are added to the log. *)
Theorem empty_table_halts_pipeline (w : World) :
  data w = None
  \/ (exists files, data w = Some files
                    /\ Forall (fun f => contribution parse_datetime f = []) files)
  \/ empty (fst (load_energy_data parse_datetime (data w))) = true ->
  main parse_datetime w
  = (mkWorld (data w) (cwd w)
       (stdout w ++ [Line "Loading data...";
                     Line "No data found. Check /data folder."])
       (log w ++ snd (load_energy_data parse_datetime (data w))),
     Some tt)
  /\ forall path, cwd (fst (main parse_datetime w)) !! path = cwd w !! path.
Proof.
  intros H.
  assert (empty (fst (load_energy_data parse_datetime (data w))) = true) as E.
  { destruct H as [->|[(files & -> & Hall)|H]].
    - apply missing_folder_empty.
    - apply no_contribution_empty, Hall.
    - exact H. }
  rewrite (main_empty w E). auto.
Qed.

Lemma contribution_building (file : CsvFile) (r : Row) :
  r ∈ contribution parse_datetime file -> building r = stem file.
Proof.
  unfold contribution.
  destruct (load_file parse_datetime file) as [e|df] eqn:E; [inversion 1|].
  destruct (load_file_inr _ file df E) as (raw & _ & _ & _ & _ & Hrows).
  intros Hr. apply list_elem_of_lookup_1 in Hr as [i Hi].
  destruct (Forall2_lookup_r _ _ _ _ _ Hrows Hi) as (x & _ & Hx).
  apply Hx.
Qed.

Lemma filter_other_building (file : CsvFile) (b : string) :
  b <> stem file ->
  filter (fun r => building r = b) (contribution parse_datetime file) = [].
Proof.
  intros Hb. apply filter_building_absent. intros Hin.
  apply list_elem_of_fmap in Hin as (r & -> & Hr).
  apply Hb. apply contribution_building, Hr.
Qed.

Lemma filter_loaded (b : string) (file : CsvFile) (files : list CsvFile) :
  filter (fun r => building r = b)
         (mjoin (contribution parse_datetime <$> file :: files))
  = filter (fun r => building r = b) (contribution parse_datetime file)
    ++ filter (fun r => building r = b)
              (mjoin (contribution parse_datetime <$> files)).
Proof. rewrite fmap_cons. simpl. apply filter_app. Qed.

(** With distinct file names the rows of one building come from one
    file, so their order does not depend on the order of the files. *)
Lemma rows_of_building_enumeration (files files' : list CsvFile) (b : string) :
  files ≡ₚ files' ->
  NoDup (stem <$> files) ->
  filter (fun r => building r = b) (mjoin (contribution parse_datetime <$> files))
  = filter (fun r => building r = b)
           (mjoin (contribution parse_datetime <$> files')).
Proof.
  induction 1 as [|x l l' Hperm IH|x y l|l l' l'' H1 IH1 H2 IH2]; intros Hnd.
  - reflexivity.
  - rewrite !filter_loaded. f_equal. apply IH.
    rewrite fmap_cons in Hnd. apply NoDup_cons in Hnd as [_ Hnd]. exact Hnd.
  - rewrite !filter_loaded, !app_assoc. f_equal.
    rewrite !fmap_cons in Hnd.
    apply NoDup_cons in Hnd as [Hy _]. apply not_elem_of_cons in Hy as [Hyx _].
    destruct (decide (b = stem x)) as [->|Hbx].
    + rewrite (filter_other_building y) by congruence.
      rewrite app_nil_r. reflexivity.
    + rewrite (filter_other_building x) by exact Hbx.
      rewrite app_nil_r. reflexivity.
  - rewrite IH1 by exact Hnd. apply IH2.
    rewrite <- H1. exact Hnd.
Qed.

Lemma building_elem_filter (b : string) (rs : list Row) :
  b ∈ building <$> rs <-> filter (fun r => building r = b) rs <> [].
Proof.
  split.
  - intros Hin Hnil. apply list_elem_of_fmap in Hin as (r & -> & Hr).
    eapply (filter_nil_not_elem_of _ _ r); [exact Hnil|reflexivity|exact Hr].
  - intros Hne. destruct (decide (b ∈ building <$> rs)) as [|Hnin]; [assumption|].
    destruct Hne. apply filter_building_absent, Hnin.
Qed.

Lemma summary_enumeration (files files' : list CsvFile) :
  files ≡ₚ files' ->
  NoDup (stem <$> files) ->
  building_wise_summary (fst (load_energy_data parse_datetime (Some files)))
  = building_wise_summary (fst (load_energy_data parse_datetime (Some files'))).
Proof.
  intros Hperm Hnd. rewrite !building_wise_summary_spec.
  assert (forall b,
    filter (fun r => building r = b)
           (rows (fst (load_energy_data parse_datetime (Some files))))
    = filter (fun r => building r = b)
             (rows (fst (load_energy_data parse_datetime (Some files')))))
    as Hrows.
  { intros b. rewrite !loaded_rows.
    apply rows_of_building_enumeration; assumption. }
  rewrite (summary_names_unique
             (fst (load_energy_data parse_datetime (Some files)))
             (fst (load_energy_data parse_datetime (Some files')))).
  2:{ intros k. rewrite !building_elem_filter, Hrows. reflexivity. }
  apply list_fmap_ext. intros _ k _.
  unfold kwh_of_building. rewrite Hrows. reflexivity.
Qed.

Lemma merged_has_columns (files : list CsvFile) (combined : DataFrame) :
  (rows combined <> [] -> columns combined <> []) ->
  rows (fold_left (merge_file parse_datetime) files combined) <> [] ->
  columns (fold_left (merge_file parse_datetime) files combined) <> [].
Proof.
  revert combined. induction files as [|f files IH]; intros combined H.
  - exact H.
  - simpl. apply IH. unfold merge_file.
    destruct (load_file parse_datetime f) as [e|df] eqn:E; [exact H|].
    intros _ Hnil.
    destruct (load_file_inr _ f df E) as (raw & _ & _ & _ & Hcols & _).
    assert ("building" ∈ columns (concat combined df)) as Hin.
    { apply concat_columns. rewrite Hcols. apply assign_column_elem. auto. }
    rewrite Hnil in Hin. inversion Hin.
Qed.

Lemma loaded_empty (files : list CsvFile) :
  empty (fst (load_energy_data parse_datetime (Some files)))
  = bool_decide (mjoin (contribution parse_datetime <$> files) = []).
Proof.
  unfold empty. rewrite loaded_rows.
  destruct (mjoin (contribution parse_datetime <$> files)) as [|r rs] eqn:Hj;
    [reflexivity|].
  destruct (columns (fst (load_energy_data parse_datetime (Some files))))
    eqn:Hc; [|reflexivity].
  exfalso.
  unfold load_energy_data in Hc. rewrite load_fold_spec in Hc.
  cbn [fst snd] in Hc.
  apply (merged_has_columns files empty_frame).
  - intros H. destruct H. reflexivity.
  - rewrite merge_rows, Hj. discriminate.
  - exact Hc.
Qed.

Lemma contributions_enumeration (files files' : list CsvFile) :
  files ≡ₚ files' ->
  mjoin (contribution parse_datetime <$> files) = []
  <-> mjoin (contribution parse_datetime <$> files') = [].
Proof.
  intros Hperm.
  assert (forall l : list CsvFile,
    mjoin (contribution parse_datetime <$> l) = []
    <-> Forall (fun f => contribution parse_datetime f = []) l) as Hall.
  { induction l as [|f l IH]; [split; auto|].
    rewrite fmap_cons, Forall_cons. simpl. rewrite <- IH.
    split; [apply app_eq_nil|intros [-> ->]; reflexivity]. }
  rewrite !Hall, Hperm. reflexivity.
Qed.

Lemma building_summary_written df (files : gmap string Content) :
  written_files df files !! "building_summary.csv"
  = if empty df then files !! "building_summary.csv"
    else Some (SummaryCsv (building_wise_summary df)).
Proof.
  unfold written_files. destruct (empty df); [reflexivity|].
  destruct (create_dashboard df) as [d|];
    [destruct (summary_text df (building_wise_summary df)) as [t|]|];
    rewrite !lookup_insert; repeat case_decide; congruence.
Qed.

(** C9, amended: a second run of the script over the same data folder,
    its files enumerated in the same order, leaves
    [building_summary.csv] and [summary.txt] as the first run left
    them; [building_summary.csv] moreover does not depend on the order
    in which the files, of distinct names, are enumerated. *)
Theorem outputs_reproducible :
  same_on_second_run parse_datetime "building_summary.csv"
  /\ same_on_second_run parse_datetime "summary.txt"
  /\ independent_of_enumeration parse_datetime "building_summary.csv".
Proof.
  split; [|split].
  - intros w. rewrite main_twice. reflexivity.
  - intros w. rewrite main_twice. reflexivity.
  - intros files files' dir out records Hperm Hnd.
    destruct (main_world (mkWorld (Some files) dir out records)) as [_ ->].
    destruct (main_world (mkWorld (Some files') dir out records)) as [_ ->].
    cbn [data cwd]. rewrite !building_summary_written, !loaded_empty.
    rewrite (summary_enumeration files files' Hperm Hnd).
    rewrite (bool_decide_ext _ _ (contributions_enumeration files files' Hperm)).
    reflexivity.
Qed.

End PipelineProperties.

(** ** The claims on the sample folders *)

Example iso8601_epoch : iso8601 "1970-01-01" = Some 0.
Proof. reflexivity. Qed.

Example iso8601_monday :
  iso8601 "2024-01-01 10:00:00" = Some ((19723 * 86400 + 36000) * 1000000000)
  /\ weekday 19723 = 0 /\ week_end_of 19723 = 19729.
Proof. vm_compute. auto. Qed.

Example iso8601_rejects : iso8601 "yesterday" = None /\ iso8601 "2023-02-29" = None.
Proof. vm_compute. auto. Qed.

Example unique_keeps_first_appearance :
  unique_from [] ["b"; "a"; "b"; "c"; "a"] = ["b"; "a"; "c"].
Proof. reflexivity. Qed.

Example groupby_sorts_names :
  groupby_building (table_of [bldgB; bldgA])
  = [("bldgA", [Some 1%Q; Some (11 # 2)%Q; Some (16 # 5)%Q]);
     ("bldgB", [Some 2%Q; Some (5 # 2)%Q])].
Proof. reflexivity. Qed.

(** 2024-01-02 has no reading of [bldgA]: its day is reported with 0. *)
Example daily_totals_fill_interior_days :
  calculate_daily_totals (table_of [bldgA])
  = Some [(19723 * ns_per_day, 1%Q); (19724 * ns_per_day, 0%Q);
          (19725 * ns_per_day, ((11 # 2) + (16 # 5))%Q)].
Proof. vm_compute. reflexivity. Qed.

Example full_run_writes_four_files :
  let run := main iso8601 (mkWorld (Some [bldgA; no_kwh; bldgB]) ∅ [] []) in
  snd run = Some tt
  /\ Forall (fun path => is_Some (cwd (fst run) !! path))
            ["building_summary.csv"; "cleaned_energy_data.csv";
             "dashboard.png"; "summary.txt"]
  /\ log (fst run) = [ErrorProcessing "no_kwh" (ValueError "kwh column missing")].
Proof.
  vm_compute. split; [reflexivity|]. split; [|reflexivity].
  repeat constructor; eexists; reflexivity.
Qed.

Example loads_two_buildings :
  length (rows (table_of [bldgA; no_kwh; bldgB])) = 5%nat
  /\ sr_building <$> building_wise_summary (table_of [bldgA; no_kwh; bldgB])
     = ["bldgA"; "bldgB"].
Proof. vm_compute. auto. Qed.





(** C3 as worded fails on [gaps.csv]: the file is ingested with its
    empty cells. *)
Lemma loader_keeps_null_cells : ~ no_null_cells (table_of [gaps]).
Proof.
  intros H.
  destruct (H (mkRow None (Some 2%Q) "gaps" [])) as [Hts _].
  - vm_compute. right. left.
  - apply Hts. reflexivity.
Qed.

Lemma failing_file_contributes_nothing_witness :
  contribution iso8601 no_kwh = []
  /\ table_of [bldgA; no_kwh; bldgB] = table_of [bldgA; bldgB].
Proof.
  assert (fails_validation iso8601 no_kwh) as Hbad.
  { eexists. split; [reflexivity|]. right. left. simpl.
    intros H. repeat (apply elem_of_cons in H as [H|H]; [discriminate|]).
    inversion H. }
  destruct (failing_file_contributes_nothing iso8601 [bldgA] [bldgB] no_kwh Hbad)
    as (Hnil & Hsame & _).
  split; [exact Hnil|exact Hsame].
Defined.

Lemma empty_table_halts_pipeline_witness :
  main iso8601 (mkWorld None ∅ [] [])
  = (mkWorld None ∅
       [Line "Loading data..."; Line "No data found. Check /data folder."]
       [DataFolderMissing],
     Some tt).
Proof.
  apply (empty_table_halts_pipeline iso8601 (mkWorld None ∅ [] [])).
  left. reflexivity.
Defined.

(** C6 as worded fails on [idle.csv]: the table has a row, but no row
    has a kwh, so there is no peak row and no report. *)
Lemma no_peak_without_numbers :
  rows (table_of [idle]) <> [] /\ ~ peak_reported (table_of [idle]).
Proof.
  split; [vm_compute; discriminate|].
  intros (peak & t & Hpeak & _). vm_compute in Hpeak. discriminate.
Qed.

Lemma peak_load_is_first_maximum_witness :
  exists peak,
    peak_row (table_of [bldgA; bldgB]) = Some peak
    /\ kwh peak = Some (11 # 2)%Q
    /\ timestamp peak = iso8601 "2024-01-03 11:00:00".
Proof.
  destruct peak_load_is_first_maximum as (Hgeneral & _ & _).
  assert (exists r, r ∈ rows (table_of [bldgA; bldgB]) /\ kwh r <> None) as Hex.
  { eexists. split; [vm_compute; left|]. discriminate. }
  destruct (Hgeneral (table_of [bldgA; bldgB]) Hex)
    as (i & peak & v & Hpeak & _).
  exists peak. split; [exact Hpeak|].
  vm_compute in Hpeak. apply (inj Some) in Hpeak. subst peak.
  split; reflexivity.
Defined.


(** C8 as worded fails on [tagged.csv]: the [building] column of the
    file is replaced by the name of the file. *)
Lemma building_column_overwritten :
  "building" ∈ ["timestamp"; "kwh"; "building"]
  /\ "building" <> "timestamp"
  /\ (exists df, load_file iso8601 tagged = inr df)
  /\ ~ column_passes_through iso8601 tagged "building".
Proof.
  split; [right; right; left|]. split; [discriminate|].
  split; [eexists; vm_compute; reflexivity|].
  intros H.
  pose proof (H _ (mkDataFrame ["timestamp"; "kwh"; "building"]
                     [mkRow (iso8601 "2024-01-01") (Some 3%Q) "tagged" []])
                eq_refl eq_refl) as Hbad.
  vm_compute in Hbad. discriminate.
Qed.

Lemma passthrough_columns_unchanged_witness :
  "meter" ∈ columns (table_of [bldgA; bldgB])
  /\ row_cell "meter" <$> drop 3 (rows (table_of [bldgA; bldgB]))
     = [Str "M7"; Str "M7"].
Proof.
  destruct (load_file iso8601 bldgB) as [e|df] eqn:E; [vm_compute in E; discriminate|].
  destruct (passthrough_columns_unchanged iso8601 [bldgA] [] bldgB _ df eq_refl E)
    as (_ & _ & Hcol & _).
  destruct (Hcol "meter") as [Hin _].
  - simpl. right. right. left.
  - discriminate.
  - discriminate.
  - split; [exact Hin|]. vm_compute. reflexivity.
Defined.

(** C9 as worded fails on [east.csv] and [west.csv]: with the same
    largest load in both, the peak time written to [summary.txt] is that
    of the file enumerated first. *)
Lemma summary_text_depends_on_enumeration :
  ~ independent_of_enumeration iso8601 "summary.txt".
Proof.
  intros H.
  specialize (H [east; west] [west; east] ∅ [] [] (perm_swap _ _ _)).
  assert (NoDup (stem <$> [east; west])) as Hnd.
  { apply (bool_decide_unpack _). vm_compute. exact I. }
  specialize (H Hnd). vm_compute in H. discriminate.
Qed.

Lemma outputs_reproducible_witness :
  cwd (fst (main iso8601 (mkWorld (Some [east; west]) ∅ [] [])))
    !! "building_summary.csv"
  = cwd (fst (main iso8601 (mkWorld (Some [west; east]) ∅ [] [])))
      !! "building_summary.csv".
Proof.
  destruct (outputs_reproducible iso8601) as (_ & _ & Hind).
  apply Hind.
  - apply perm_swap.
  - apply (bool_decide_unpack _). vm_compute. exact I.
Defined.


(** * Further properties *)

(** ** Weekly aggregates and the calendar of the series *)




Lemma week_end_of_bounds (d : Z) : d <= week_end_of d < d + 7.
Proof.
  unfold week_end_of, weekday.
  pose proof (Z.mod_pos_bound (d + 3) 7). lia.
Qed.












(** ** Sums that do not depend on the order of the rows *)






(** ** The statistics of the building-wise summary *)












(** ** The object model *)

Lemma py_sum_snoc (xs : list (option Q)) (k : option Q) :
  py_sum (xs ++ [k]) = py_add (py_sum xs) k.
Proof. unfold py_sum. rewrite fold_left_app. reflexivity. Qed.

(** X6: [Building.add_reading] appends the reading and keeps the name;
    the total consumption afterwards is the total before plus the new
    kwh, starting from 0 for a building without readings, so that once
    a NaN was added the total is NaN whatever is added later. *)
Theorem add_reading_accumulates (b : Building) (t : option Z) (k : option Q) :
  name (Building_add_reading b t k) = name b
  /\ meter_readings (Building_add_reading b t k)
     = meter_readings b ++ [mkMeterReading t k]
  /\ calculate_total_consumption (Building_add_reading b t k)
     = py_add (calculate_total_consumption b) k
  /\ calculate_total_consumption (mkBuilding (name b) []) = Some 0%Q
  /\ (calculate_total_consumption b = None ->
      calculate_total_consumption (Building_add_reading b t k) = None).
Proof.
  assert (calculate_total_consumption (Building_add_reading b t k)
          = py_add (calculate_total_consumption b) k) as Hadd.
  { unfold calculate_total_consumption, Building_add_reading. simpl.
    rewrite fmap_app. apply py_sum_snoc. }
  repeat split; try reflexivity; [exact Hadd|].
  intros Hnan. rewrite Hadd, Hnan. reflexivity.
Qed.

Lemma add_reading_names (m : BuildingManager) b t k :
  fst <$> BuildingManager_add_reading m b t k
  = if bool_decide (b ∈ fst <$> m) then fst <$> m else (fst <$> m) ++ [b].
Proof.
  induction m as [|[n B] m IH]; [reflexivity|].
  cbn [BuildingManager_add_reading].
  destruct (String.eqb_spec n b) as [->|Hne]; rewrite !fmap_cons; cbn [fst].
  - rewrite bool_decide_true by left. reflexivity.
  - rewrite IH. destruct (bool_decide (b ∈ fst <$> m)) eqn:E.
    + apply bool_decide_eq_true in E.
      rewrite bool_decide_true by (right; exact E). reflexivity.
    + apply bool_decide_eq_false in E.
      rewrite bool_decide_false; [reflexivity|].
      intros Hin. apply elem_of_cons in Hin as [?|?]; congruence.
Qed.

(** X7: [BuildingManager.add_reading] creates the building on first use,
    at the end of the dict, and otherwise appends to the building that
    is there: afterwards the building holds the readings it had (none if
    it is new) followed by the new one, every other building is what it
    was, and the buildings keep their order and stay distinct. *)
Theorem manager_add_reading (m : BuildingManager) (b : string)
    (t : option Z) (k : option Q) :
  let m' := BuildingManager_add_reading m b t k in
  fst <$> m' = (if bool_decide (b ∈ fst <$> m) then fst <$> m
                else (fst <$> m) ++ [b])
  /\ lookup_building b m'
     = Some (Building_add_reading
               (default (mkBuilding b []) (lookup_building b m)) t k)
  /\ (forall b', b' <> b -> lookup_building b' m' = lookup_building b' m)
  /\ (NoDup (fst <$> m) -> NoDup (fst <$> m')).
Proof.
  simpl. split; [apply add_reading_names|]. split; [|split].
  - rewrite add_reading_lookup, decide_True by reflexivity. reflexivity.
  - intros b' Hne. rewrite add_reading_lookup, decide_False by exact Hne.
    reflexivity.
  - intros Hnd. rewrite add_reading_names. case_bool_decide as Hin; [exact Hnd|].
    apply NoDup_app. split; [exact Hnd|]. split.
    + intros x Hx Hxb. apply list_elem_of_singleton in Hxb as ->. contradiction.
    + apply NoDup_singleton.
Qed.

Lemma unique_from_ext (seen seen' xs : list string) :
  (forall y, y ∈ seen <-> y ∈ seen') ->
  unique_from seen xs = unique_from seen' xs.
Proof.
  revert seen seen'. induction xs as [|x xs IH]; intros seen seen' H; simpl.
  - reflexivity.
  - rewrite (bool_decide_ext _ _ (H x)). case_bool_decide.
    + apply IH, H.
    + f_equal. apply IH. intros y. rewrite !elem_of_cons, H. reflexivity.
Qed.

Lemma unique_from_app (seen xs ys : list string) :
  unique_from seen (xs ++ ys)
  = unique_from seen xs ++ unique_from (xs ++ seen) ys.
Proof.
  revert seen. induction xs as [|x xs IH]; intros seen; simpl; [reflexivity|].
  case_bool_decide as Hx.
  - rewrite IH. f_equal. apply unique_from_ext. intros y.
    repeat (rewrite elem_of_app || rewrite elem_of_cons).
    split; [tauto|]. intros [->|H]; tauto.
  - simpl. f_equal. rewrite IH. f_equal. apply unique_from_ext. intros y.
    repeat (rewrite elem_of_app || rewrite elem_of_cons). tauto.
Qed.

Lemma unique_from_elem (seen xs : list string) (y : string) :
  y ∈ unique_from seen xs <-> y ∈ xs /\ y ∉ seen.
Proof.
  revert seen. induction xs as [|x xs IH]; intros seen; simpl.
  - split; [inversion 1|]. intros [H _]. inversion H.
  - case_bool_decide as Hx.
    + rewrite IH, elem_of_cons. split; [tauto|].
      intros [[->|?] ?]; [contradiction|tauto].
    + rewrite !elem_of_cons, IH, not_elem_of_cons. split.
      * intros [->|(? & ? & ?)]; tauto.
      * intros [[->|?] ?]; [tauto|].
        destruct (decide (y = x)); [tauto|]. right. tauto.
Qed.

Lemma unique_from_NoDup (seen xs : list string) : NoDup (unique_from seen xs).
Proof.
  revert seen. induction xs as [|x xs IH]; intros seen; simpl; [constructor|].
  case_bool_decide; [apply IH|].
  constructor; [|apply IH].
  rewrite unique_from_elem, not_elem_of_cons. tauto.
Qed.

Lemma manager_of_names (df : DataFrame) :
  fst <$> manager_of df = unique_buildings df.
Proof.
  unfold manager_of, unique_buildings. generalize (rows df) as rs. clear df.
  induction rs as [|r rs IH] using rev_ind; [reflexivity|].
  rewrite fold_left_app. simpl. rewrite add_reading_names, IH.
  rewrite fmap_app, unique_from_app. simpl.
  rewrite app_nil_r.
  rewrite (bool_decide_ext (building r ∈ unique_from [] (building <$> rs))
                           (building r ∈ building <$> rs)).
  2:{ rewrite unique_from_elem. split; [tauto|]. intros H. split; [exact H|].
      inversion 1. }
  case_bool_decide; [symmetry; apply app_nil_r|reflexivity].
Qed.

Lemma lookup_building_elem (m : BuildingManager) (b : string) (B : Building) :
  NoDup (fst <$> m) -> (b, B) ∈ m -> lookup_building b m = Some B.
Proof.
  unfold lookup_building. induction m as [|[n B0] m IH]; intros Hnd Hin.
  - inversion Hin.
  - rewrite fmap_cons in Hnd. apply NoDup_cons in Hnd as [Hn Hnd]. simpl in *.
    apply elem_of_cons in Hin as [Heq|Hin].
    + injection Heq as -> ->. rewrite String.eqb_refl. reflexivity.
    + destruct (String.eqb_spec n b) as [->|_]; [|auto].
      destruct Hn. apply list_elem_of_fmap. exists (b, B). auto.
Qed.

Lemma generate_all_reports_spec (df : DataFrame) :
  generate_all_reports (manager_of df)
  = (fun b => (b, py_sum (kwh_of_building b (rows df)))) <$> unique_buildings df.
Proof.
  rewrite <- manager_of_names. unfold generate_all_reports.
  rewrite <- list_fmap_compose.
  apply Forall_fmap_ext, Forall_forall. intros [b B] Hin. simpl.
  apply lookup_building_elem in Hin.
  2:{ rewrite manager_of_names. apply unique_from_NoDup. }
  rewrite manager_of_lookup in Hin. case_decide; [|discriminate].
  injection Hin as <-.
  unfold generate_report, calculate_total_consumption, readings_of_building.
  simpl. rewrite <- list_fmap_compose. reflexivity.
Qed.

(** X8: after every row of a table was handed to the manager,
    [generate_all_reports] gives one line for each building of the
    table, in order of first appearance, with Python's sum of the kwh of
    that building's rows in table order. *)
Theorem reports_follow_first_appearance (df : DataFrame) :
  generate_all_reports (manager_of df)
  = (fun b => (b, py_sum (kwh_of_building b (rows df)))) <$> unique_buildings df
  /\ NoDup (unique_buildings df)
  /\ (forall b, b ∈ unique_buildings df <-> b ∈ building <$> rows df)
  /\ (forall rs r cols,
        rows df = rs ++ [r] ->
        unique_buildings df
        = unique_buildings (mkDataFrame cols rs)
          ++ (if bool_decide (building r ∈ building <$> rs) then []
              else [building r])).
Proof.
  split; [apply generate_all_reports_spec|].
  split; [apply unique_from_NoDup|]. split.
  - intros b. unfold unique_buildings. rewrite unique_from_elem.
    split; [tauto|]. intros H. split; [exact H|]. inversion 1.
  - intros rs r cols Hrows. unfold unique_buildings. rewrite Hrows. simpl.
    rewrite fmap_app, unique_from_app. simpl. rewrite app_nil_r.
    case_bool_decide; reflexivity.
Qed.



(** ** More on the loader *)

Section FurtherLoaderProperties.

Variable parse_datetime : string -> option Z.









End FurtherLoaderProperties.

(** ** The dashboard *)






(** ** More on the merged table and the run *)

Section FurtherPipelineProperties.

Variable parse_datetime : string -> option Z.

Lemma merge_columns_file (files : list CsvFile) (combined : DataFrame)
    (file : CsvFile) (df : DataFrame) (c : string) :
  file ∈ files -> load_file parse_datetime file = inr df -> c ∈ columns df ->
  c ∈ columns (fold_left (merge_file parse_datetime) files combined).
Proof.
  intros Hin Hdf Hc. revert combined.
  induction files as [|f files IH]; intros combined; [inversion Hin|].
  simpl. apply elem_of_cons in Hin as [<-|Hin].
  - apply merge_columns. unfold merge_file. rewrite Hdf.
    apply concat_columns, Hc.
  - apply IH, Hin.
Qed.

Lemma loaded_row_origin (files : list CsvFile) (r : Row) :
  r ∈ rows (fst (load_energy_data parse_datetime (Some files))) <->
  exists file, file ∈ files /\ r ∈ contribution parse_datetime file.
Proof.
  rewrite loaded_rows, list_elem_of_join. split.
  - intros (l & Hr & Hl). apply list_elem_of_fmap in Hl as (file & -> & Hin).
    eauto.
  - intros (file & Hin & Hr). exists (contribution parse_datetime file).
    split; [exact Hr|]. apply list_elem_of_fmap. eauto.
Qed.

(** X13: a merged table with rows has the columns [timestamp], [kwh]
    and [building], which the aggregation reads; every row of it comes
    from a file of the folder and carries that file's name, and the
    names of the building-wise summary are exactly the names of the
    files that contributed a row. *)
Theorem merged_table_schema (files : list CsvFile) :
  let df := fst (load_energy_data parse_datetime (Some files)) in
  (rows df <> [] ->
   "timestamp" ∈ columns df /\ "kwh" ∈ columns df /\ "building" ∈ columns df)
  /\ (forall r, r ∈ rows df ->
        exists file, file ∈ files
                     /\ r ∈ contribution parse_datetime file
                     /\ building r = stem file)
  /\ (forall b, b ∈ sr_building <$> building_wise_summary df <->
        exists file, file ∈ files /\ stem file = b
                     /\ contribution parse_datetime file <> []).
Proof.
  cbv zeta. split; [|split].
  - intros Hne.
    destruct (rows (fst (load_energy_data parse_datetime (Some files))))
      as [|r rs] eqn:Hrows; [contradiction|].
    assert (r ∈ rows (fst (load_energy_data parse_datetime (Some files)))) as Hr.
    { rewrite Hrows. left. }
    apply loaded_row_origin in Hr as (file & Hin & Hr).
    unfold contribution in Hr.
    destruct (load_file parse_datetime file) as [e|dff] eqn:Hdf; [inversion Hr|].
    destruct (load_file_inr _ file dff Hdf) as (raw & _ & Hts & Hk & Hcols & _).
    unfold load_energy_data. rewrite load_fold_spec. cbn [fst snd].
    repeat split; apply (merge_columns_file files _ file dff); try assumption;
      rewrite Hcols; apply assign_column_elem; auto.
  - intros r Hr. apply loaded_row_origin in Hr as (file & Hin & Hr).
    exists file. repeat split; try assumption.
    apply (contribution_building parse_datetime), Hr.
  - intros b. rewrite building_wise_summary_names, summary_names_elem. split.
    + intros Hb. apply list_elem_of_fmap in Hb as (r & -> & Hr).
      apply loaded_row_origin in Hr as (file & Hin & Hr).
      exists file. split; [exact Hin|]. split.
      * symmetry. apply (contribution_building parse_datetime), Hr.
      * intros Hnil. rewrite Hnil in Hr. inversion Hr.
    + intros (file & Hin & <- & Hne).
      destruct (contribution parse_datetime file) as [|r rs] eqn:Hc;
        [contradiction|].
      assert (r ∈ contribution parse_datetime file) as Hr by (rewrite Hc; left).
      apply list_elem_of_fmap. exists r. split.
      * symmetry. apply (contribution_building parse_datetime), Hr.
      * apply loaded_row_origin. eauto.
Qed.









End FurtherPipelineProperties.

(** ** The ranges of the report *)





(** ** The further properties on the sample folders *)








